(** * Player statistics and league ranks

    A shallow embedding of [backend/app/helpers/players.py] together with
    the rows of [backend/app/dbmodels/models.py] it reads, and the
    properties of the summary and of the ranks that are stated for it.

    The database is a value of type [Store]; the helper functions only
    read it, so they are functions of the store.

    The second part embeds [backend/scripts/load_data.py], which writes
    the tables, and relates what it writes to what the helpers read. *)

From Stdlib Require Import ZArith String Ascii List.
From Stdlib Require QArith.
From stdpp Require Import base decidable option list numbers strings gmap.

Local Open Scope Z_scope.
Local Open Scope string_scope.
Local Open Scope list_scope.

(** ** Rows of the tables ([dbmodels/models.py]) *)

(** A [FloatField], as the number it holds. The helpers only copy
    coordinates into their output. *)
Definition coord : Type := QArith_base.Q.

Module Player.
(** A row of [players]; its primary key [player_id] is the key under
    which the store holds it. *)
Record t := { name : string; team_id : Z }.
End Player.

Module Shot.
Record t := {
  id : Z;
  player_id : Z;
  game_id : Z;
  points : Z;
  shooting_foul_drawn : bool;
  shot_loc_x : coord;
  shot_loc_y : coord;
  action_type : string
}.
End Shot.

Module Pass.
Record t := {
  id : Z;
  player_id : Z;
  game_id : Z;
  completed_pass : bool;
  potential_assist : bool;
  turnover : bool;
  ball_start_loc_x : coord;
  ball_start_loc_y : coord;
  ball_end_loc_x : coord;
  ball_end_loc_y : coord;
  action_type : string
}.
End Pass.

Module Turnover.
Record t := {
  id : Z;
  player_id : Z;
  game_id : Z;
  tov_loc_x : coord;
  tov_loc_y : coord;
  action_type : string
}.
End Turnover.

(** The three event models share the foreign key to the player and the
    [action_type] column. *)
Class Event (A : Type) := {
  player_of : A → Z;
  action_type_of : A → string
}.

#[export] Instance shot_event : Event Shot.t :=
  {| player_of := Shot.player_id; action_type_of := Shot.action_type |}.
#[export] Instance pass_event : Event Pass.t :=
  {| player_of := Pass.player_id; action_type_of := Pass.action_type |}.
#[export] Instance turnover_event : Event Turnover.t :=
  {| player_of := Turnover.player_id; action_type_of := Turnover.action_type |}.

(** The database. [players] is keyed by the primary key; the event tables
    are kept in the order in which the database returns their rows. *)
Record Store := {
  players : gmap Z Player.t;
  shots : list Shot.t;
  passes : list Pass.t;
  turnovers : list Turnover.t
}.

(** ** The query surface used by the helpers *)

Module Orm.

(** [qs.filter(player=p)] *)
Definition filter_player `{Event A} (pk : Z) (qs : list A) : list A :=
  filter (λ e, player_of e = pk) qs.

(** [qs.filter(action_type=a)] *)
Definition filter_action `{Event A} (a : string) (qs : list A) : list A :=
  filter (λ e, action_type_of e = a) qs.

(** [qs.count()] *)
Definition count {A} (qs : list A) : Z := Z.of_nat (length qs).

(** [Player.objects.all()], as primary keys with their rows. *)
Definition all_players (st : Store) : list (Z * Player.t) :=
  map_to_list (players st).

(** The rows a LEFT OUTER JOIN contributes for one player: one per
    related row, or a single all-NULL row when there is none. *)
Definition left_outer_join {A} (related : list A) : list (option A) :=
  match related with
  | [] => [None]
  | _ => Some <$> related
  end.

(** The non-NULL values of a joined column. *)
Definition non_null {A} (col : list (option A)) : list A := omap id col.

(** [COUNT(col)] over the rows of one group: NULLs are not counted. *)
Definition sql_count {A} (col : list (option A)) : Z := count (non_null col).

(** [COUNT(col) FILTER (WHERE cond)]: a row counts when the column is not
    NULL and the condition is true on it. *)
Definition sql_count_filter {A} (cond : A → bool) (col : list (option A)) : Z :=
  count (filter (λ a, cond a = true) (non_null col)).

(** The group of one player in
    [Player.objects.annotate(tov_count=Count('turnovers') + Count('passes', filter=...))].
    Both aggregates are columns of one query,
    [FROM players LEFT OUTER JOIN turnovers ON ... LEFT OUTER JOIN passes ON ...
     GROUP BY players.player_id],
    so the group of a player holds one row per pair of a turnover row and a
    pass row of that player, with NULLs on the side that has no row. *)
Definition join_turnovers_passes (st : Store) (pk : Z)
  : list (option Turnover.t * option Pass.t) :=
  t ← left_outer_join (filter_player pk (turnovers st));
  p ← left_outer_join (filter_player pk (passes st));
  [(t, p)].

(** [Player.objects.annotate(x=...)]: every player with the value of the
    annotation on its group. *)
Definition annotate (st : Store) (x : Z → Z) : list (Z * Z) :=
  (λ p, (p.1, x p.1)) <$> all_players st.

(** [qs.filter(x__gt=v)] on an annotated query set. *)
Definition filter_gt (v : Z) (qs : list (Z * Z)) : list (Z * Z) :=
  filter (λ r, v < r.2) qs.

(** [qs.aggregate(Sum(col))[...]]: [SUM] over no rows is NULL ([None]). *)
Definition aggregate_sum (col : list Z) : option Z :=
  match col with
  | [] => None
  | _ => Some (foldr Z.add 0 col)
  end.

End Orm.

(** ** Python values used by the helpers *)

Module Py.

(** [sum(xs)]: starts from 0 and adds from the left. *)
Definition sum (xs : list Z) : Z := foldl Z.add 0 xs.

(** [x or 0] for [x] an integer or [None]. *)
Definition or_0 (x : option Z) : Z :=
  match x with
  | None => 0
  | Some n => if decide (n = 0) then 0 else n
  end.

Inductive exn := ValueError.

(** The result of a call: a returned value or a raised exception. *)
Inductive outcome (A : Type) :=
| Returns (a : A)
| Raises (e : exn).
Arguments Returns {A} a.
Arguments Raises {A} e.

(** A [str] is held as the UTF-8 encoding of its text. *)

(** The six payload bits of a continuation byte [10xxxxxx]. *)
Definition continuation (c : ascii) : option N :=
  let n := N_of_ascii c in
  if ((0x80 <=? n) && (n <? 0xC0))%N then Some (n - 0x80)%N else None.

(** The code points of a [str]. [None] on bytes that are the encoding of
    no text: a truncated or overlong sequence, a surrogate, a value above
    U+10FFFF. *)
Fixpoint code_points (l : list ascii) : option (list N) :=
  match l with
  | [] => Some []
  | c :: l1 =>
      let n := N_of_ascii c in
      if (n <? 0x80)%N then cons n <$> code_points l1
      else if (n <? 0xC0)%N then None
      else if (n <? 0xE0)%N then
        match l1 with
        | c1 :: l2 =>
            match continuation c1 with
            | Some x1 =>
                let cp := ((n - 0xC0) * 64 + x1)%N in
                if (cp <? 0x80)%N then None else cons cp <$> code_points l2
            | None => None
            end
        | _ => None
        end
      else if (n <? 0xF0)%N then
        match l1 with
        | c1 :: c2 :: l3 =>
            match continuation c1, continuation c2 with
            | Some x1, Some x2 =>
                let cp := (((n - 0xE0) * 64 + x1) * 64 + x2)%N in
                if ((cp <? 0x800) || (0xD800 <=? cp) && (cp <? 0xE000))%N then None
                else cons cp <$> code_points l3
            | _, _ => None
            end
        | _ => None
        end
      else if (n <? 0xF8)%N then
        match l1 with
        | c1 :: c2 :: c3 :: l4 =>
            match continuation c1, continuation c2, continuation c3 with
            | Some x1, Some x2, Some x3 =>
                let cp := ((((n - 0xF0) * 64 + x1) * 64 + x2) * 64 + x3)%N in
                if ((cp <? 0x10000) || (0x10FFFF <? cp))%N then None
                else cons cp <$> code_points l4
            | _, _, _ => None
            end
        | _ => None
        end
      else None
  end.

(** The blanks above ASCII ([Py_UNICODE_ISSPACE]). *)
Definition unicode_space (cp : N) : bool :=
  (bool_decide (cp ∈ [0x85; 0xA0; 0x1680; 0x2028; 0x2029; 0x202F; 0x205F; 0x3000])
   || (0x2000 <=? cp) && (cp <=? 0x200A))%N.

(** The decimal digits come in runs of ten, from the digit zero to the
    digit nine of a script. These are the code points of the zeros, in
    the character database of CPython 3.11 (Unicode 14.0). *)
Definition decimal_zeros : list N :=
  [0x30; 0x660; 0x6F0; 0x7C0; 0x966; 0x9E6; 0xA66; 0xAE6; 0xB66; 0xBE6;
   0xC66; 0xCE6; 0xD66; 0xDE6; 0xE50; 0xED0; 0xF20; 0x1040; 0x1090; 0x17E0;
   0x1810; 0x1946; 0x19D0; 0x1A80; 0x1A90; 0x1B50; 0x1BB0; 0x1C40; 0x1C50;
   0xA620; 0xA8D0; 0xA900; 0xA9D0; 0xA9F0; 0xAA50; 0xABF0; 0xFF10; 0x104A0;
   0x10D30; 0x11066; 0x110F0; 0x11136; 0x111D0; 0x112F0; 0x11450; 0x114D0;
   0x11650; 0x116C0; 0x11730; 0x118E0; 0x11950; 0x11C50; 0x11D50; 0x11DA0;
   0x16A60; 0x16AC0; 0x16B50; 0x1D7CE; 0x1D7D8; 0x1D7E2; 0x1D7EC; 0x1D7F6;
   0x1E140; 0x1E2F0; 0x1E950; 0x1FBF0]%N.

(** The value of a decimal digit ([Py_UNICODE_TODECIMAL]). *)
Definition to_decimal (cp : N) : option N :=
  (λ zero, cp - zero)%N
    <$> List.find (λ zero, (zero <=? cp) && (cp <? zero + 10))%N decimal_zeros.

(** Text that is not all ASCII is brought to ASCII before it is parsed:
    code points below 127 are kept, a blank becomes a space, a decimal
    digit becomes the ASCII digit of its value, and the text is cut with a
    question mark at the first code point that is none of these. *)
Fixpoint to_ascii (l : list N) : list ascii :=
  match l with
  | [] => []
  | cp :: l' =>
      if (cp <? 127)%N then ascii_of_N cp :: to_ascii l'
      else if unicode_space cp then " "%char :: to_ascii l'
      else match to_decimal cp with
           | Some d => ascii_of_N (48 + d) :: to_ascii l'
           | None => ["?"%char]
           end
  end.

(** The text that the parser of integer literals is given. *)
Definition literal_text (l : list N) : list ascii :=
  if forallb (λ cp, cp <? 0x80)%N l then ascii_of_N <$> l else to_ascii l.

(** The blanks that the parser skips on both sides of the literal
    ([Py_ISSPACE]): tab to carriage return, and the space. *)
Definition is_space (c : ascii) : bool :=
  let n := nat_of_ascii c in
  ((9 <=? n) && (n <=? 13) || (n =? 32))%nat.

Definition digit_of (c : ascii) : option Z :=
  let n := nat_of_ascii c in
  if ((48 <=? n) && (n <=? 57))%nat then Some (Z.of_nat (n - 48)) else None.

Fixpoint lstrip (l : list ascii) : list ascii :=
  match l with
  | c :: l' => if is_space c then lstrip l' else l
  | [] => []
  end.

Definition strip (l : list ascii) : list ascii :=
  reverse (lstrip (reverse (lstrip l))).

(** Decimal digits, with single underscores allowed between digits. *)
Fixpoint digits (acc : Z) (after_digit : bool) (l : list ascii) : option Z :=
  match l with
  | [] => if after_digit then Some acc else None
  | c :: l' =>
      if Ascii.eqb c "_"%char
      then (if after_digit then digits acc false l' else None)
      else match digit_of c with
           | Some d => digits (10 * acc + d) true l'
           | None => None
           end
  end.

(** The interpreter's default cap on the digits of a decimal literal. *)
Definition int_max_str_digits : nat := 4300.

Definition digit_count (l : list ascii) : nat :=
  length (filter (λ c, is_Some (digit_of c)) l).

(** [int(s)] for a [str]: blanks on both sides, an optional sign, decimal
    digits of any script. [None] stands for [ValueError]. *)
Definition int (s : string) : option Z :=
  match code_points (list_ascii_of_string s) with
  | None => None
  | Some text =>
      let body := strip (literal_text text) in
      let '(negative, ds) :=
        match body with
        | "-"%char :: ds => (true, ds)
        | "+"%char :: ds => (false, ds)
        | _ => (false, body)
        end in
      if (int_max_str_digits <? digit_count ds)%nat then None
      else (λ n, if negative then - n else n) <$> digits 0 false ds
  end.

End Py.


(** ** The dictionaries built by the helpers

    Each dictionary literal of the source has a fixed set of keys and is a
    record with those keys as fields. *)

Module ShotData.
Record t := { loc : list coord; points : Z }.
End ShotData.

Module PassData.
Record t := {
  startLoc : list coord;
  endLoc : list coord;
  isCompleted : bool;
  isPotentialAssist : bool;
  isTurnover : bool
}.
End PassData.

Module TurnoverData.
Record t := { loc : list coord }.
End TurnoverData.

Module ActionStats.
Record t := {
  totalShotAttempts : Z;
  totalPoints : Z;
  totalPasses : Z;
  totalPotentialAssists : Z;
  totalTurnovers : Z;
  totalPassingTurnovers : Z;
  shots : list ShotData.t;
  passes : list PassData.t;
  turnovers : list TurnoverData.t
}.
End ActionStats.

Module PlayerSummary.
Record t := {
  name : string;
  playerID : Z;
  totalShotAttempts : Z;
  totalPoints : Z;
  totalPasses : Z;
  totalPotentialAssists : Z;
  totalTurnovers : Z;
  totalPassingTurnovers : Z;
  pickAndRollCount : Z;
  isolationCount : Z;
  postUpCount : Z;
  offBallScreenCount : Z;
  pickAndRoll : ActionStats.t;
  isolation : ActionStats.t;
  postUp : ActionStats.t;
  offBallScreen : ActionStats.t
}.
End PlayerSummary.

Module RankSet.
Record t := {
  totalShotAttemptsRank : Z;
  totalPointsRank : Z;
  totalPassesRank : Z;
  totalPotentialAssistsRank : Z;
  totalTurnoversRank : Z;
  totalPassingTurnoversRank : Z;
  pickAndRollCountRank : Z;
  isolationCountRank : Z;
  postUpCountRank : Z;
  offBallScreenCountRank : Z
}.
End RankSet.

(** What [get_player_summary_stats] returns: the dictionary with the single
    key ["error"], or the dictionary of the statistics. *)
Inductive summary_dict :=
| ErrorDict (error : string)
| StatsDict (s : PlayerSummary.t).

(** [d.get(key, default)] for the keys that hold an integer. The other
    keys of the statistics dictionary hold the name and the four nested
    dictionaries; no helper reads them through [get]. *)
Definition dict_get (d : summary_dict) (key : string) (default : Z) : Z :=
  match d with
  | ErrorDict _ => default
  | StatsDict s =>
      if String.eqb key "playerID" then PlayerSummary.playerID s
      else if String.eqb key "totalShotAttempts" then PlayerSummary.totalShotAttempts s
      else if String.eqb key "totalPoints" then PlayerSummary.totalPoints s
      else if String.eqb key "totalPasses" then PlayerSummary.totalPasses s
      else if String.eqb key "totalPotentialAssists" then PlayerSummary.totalPotentialAssists s
      else if String.eqb key "totalTurnovers" then PlayerSummary.totalTurnovers s
      else if String.eqb key "totalPassingTurnovers" then PlayerSummary.totalPassingTurnovers s
      else if String.eqb key "pickAndRollCount" then PlayerSummary.pickAndRollCount s
      else if String.eqb key "isolationCount" then PlayerSummary.isolationCount s
      else if String.eqb key "postUpCount" then PlayerSummary.postUpCount s
      else if String.eqb key "offBallScreenCount" then PlayerSummary.offBallScreenCount s
      else default
  end.

(** ** [helpers/players.py] *)

Module Players.

(** The inner function [get_action_stats], with the three query sets of
    the player that it closes over as arguments. *)
Definition get_action_stats
    (shots : list Shot.t) (passes : list Pass.t) (turnovers : list Turnover.t)
    (action_type : string) : ActionStats.t :=
  let action_shots := Orm.filter_action action_type shots in
  let action_passes := Orm.filter_action action_type passes in
  let action_turnovers := Orm.filter_action action_type turnovers in
  let shots_data :=
    (λ shot, {| ShotData.loc := [Shot.shot_loc_x shot; Shot.shot_loc_y shot];
                ShotData.points := Shot.points shot |}) <$> action_shots in
  let passes_data :=
    (λ p, {| PassData.startLoc := [Pass.ball_start_loc_x p; Pass.ball_start_loc_y p];
             PassData.endLoc := [Pass.ball_end_loc_x p; Pass.ball_end_loc_y p];
             PassData.isCompleted := Pass.completed_pass p;
             PassData.isPotentialAssist := Pass.potential_assist p;
             PassData.isTurnover := Pass.turnover p |}) <$> action_passes in
  let turnovers_data :=
    (λ tov, {| TurnoverData.loc := [Turnover.tov_loc_x tov; Turnover.tov_loc_y tov] |})
      <$> action_turnovers in
  {| ActionStats.totalShotAttempts := Orm.count action_shots;
     ActionStats.totalPoints := Py.sum (Shot.points <$> action_shots);
     ActionStats.totalPasses := Orm.count action_passes;
     ActionStats.totalPotentialAssists :=
       Orm.count (filter (λ p, Pass.potential_assist p = true) action_passes);
     ActionStats.totalTurnovers :=
       Orm.count action_turnovers
       + Orm.count (filter (λ p, Pass.turnover p = true) action_passes);
     ActionStats.totalPassingTurnovers :=
       Orm.count (filter (λ p, Pass.turnover p = true) action_passes);
     ActionStats.shots := shots_data;
     ActionStats.passes := passes_data;
     ActionStats.turnovers := turnovers_data |}.

(** The body of [get_player_summary_stats] once the player is found. *)
Definition player_summary (st : Store) (pk : Z) (player : Player.t)
  : PlayerSummary.t :=
  let shots := Orm.filter_player pk (shots st) in
  let passes := Orm.filter_player pk (passes st) in
  let turnovers := Orm.filter_player pk (turnovers st) in
  let pick_and_roll := get_action_stats shots passes turnovers "pickAndRoll" in
  let isolation := get_action_stats shots passes turnovers "isolation" in
  let post_up := get_action_stats shots passes turnovers "postUp" in
  let off_ball_screen := get_action_stats shots passes turnovers "offBallScreen" in
  let total_shot_attempts := Orm.count shots in
  let total_points := Py.sum (Shot.points <$> shots) in
  let total_passes := Orm.count passes in
  let total_potential_assists :=
    Orm.count (filter (λ p, Pass.potential_assist p = true) passes) in
  let total_turnovers :=
    Orm.count turnovers + Orm.count (filter (λ p, Pass.turnover p = true) passes) in
  let total_passing_turnovers :=
    Orm.count (filter (λ p, Pass.turnover p = true) passes) in
  let pick_and_roll_count :=
    Orm.count (Orm.filter_action "pickAndRoll" shots)
    + Orm.count (Orm.filter_action "pickAndRoll" passes)
    + Orm.count (Orm.filter_action "pickAndRoll" turnovers) in
  let isolation_count :=
    Orm.count (Orm.filter_action "isolation" shots)
    + Orm.count (Orm.filter_action "isolation" passes)
    + Orm.count (Orm.filter_action "isolation" turnovers) in
  let post_up_count :=
    Orm.count (Orm.filter_action "postUp" shots)
    + Orm.count (Orm.filter_action "postUp" passes)
    + Orm.count (Orm.filter_action "postUp" turnovers) in
  let off_ball_screen_count :=
    Orm.count (Orm.filter_action "offBallScreen" shots)
    + Orm.count (Orm.filter_action "offBallScreen" passes)
    + Orm.count (Orm.filter_action "offBallScreen" turnovers) in
  {| PlayerSummary.name := Player.name player;
     PlayerSummary.playerID := pk;
     PlayerSummary.totalShotAttempts := total_shot_attempts;
     PlayerSummary.totalPoints := total_points;
     PlayerSummary.totalPasses := total_passes;
     PlayerSummary.totalPotentialAssists := total_potential_assists;
     PlayerSummary.totalTurnovers := total_turnovers;
     PlayerSummary.totalPassingTurnovers := total_passing_turnovers;
     PlayerSummary.pickAndRollCount := pick_and_roll_count;
     PlayerSummary.isolationCount := isolation_count;
     PlayerSummary.postUpCount := post_up_count;
     PlayerSummary.offBallScreenCount := off_ball_screen_count;
     PlayerSummary.pickAndRoll := pick_and_roll;
     PlayerSummary.isolation := isolation;
     PlayerSummary.postUp := post_up;
     PlayerSummary.offBallScreen := off_ball_screen |}.

(** [get_player_summary_stats(player_id)]. [int(player_id)] is evaluated
    inside the [try]; only [Player.DoesNotExist] is caught there. *)
Definition get_player_summary_stats (st : Store) (player_id : string)
  : Py.outcome summary_dict :=
  match Py.int player_id with
  | None => Py.Raises Py.ValueError
  | Some pk =>
      match players st !! pk with
      | None =>
          Py.Returns (ErrorDict ("Player with ID " +:+ player_id +:+ " not found"))
      | Some player => Py.Returns (StatsDict (player_summary st pk player))
      end
  end.

(** The loop
    [better_count = 0; for p in all_players: if value(p) > player_value: better_count += 1]. *)
Definition count_better (st : Store) (value : Z → Z) (player_value : Z) : Z :=
  foldl (λ better_count p,
           if decide (value p.1 > player_value) then better_count + 1
           else better_count)
        0 (Orm.all_players st).

(** How many of the player's events of the three kinds carry the action
    type, as counted in the loops of [calculate_rank]. *)
Definition action_count (st : Store) (action_type : string) (pk : Z) : Z :=
  Orm.count (Orm.filter_action action_type (Orm.filter_player pk (shots st)))
  + Orm.count (Orm.filter_action action_type (Orm.filter_player pk (passes st)))
  + Orm.count (Orm.filter_action action_type (Orm.filter_player pk (turnovers st))).

(** The inner function [calculate_rank] of [get_ranks]. *)
Definition calculate_rank (st : Store) (stat_name : string) (player_value : Z) : Z :=
  if String.eqb stat_name "totalShotAttempts" then
    let better_count :=
      Orm.count (Orm.filter_gt player_value (Orm.annotate st (λ pk,
        Orm.sql_count (Orm.left_outer_join (Orm.filter_player pk (shots st)))))) in
    better_count + 1
  else if String.eqb stat_name "totalPoints" then
    let better_count :=
      count_better st (λ pk,
        Py.or_0 (Orm.aggregate_sum
                   (Shot.points <$> Orm.filter_player pk (shots st))))
        player_value in
    better_count + 1
  else if String.eqb stat_name "totalPasses" then
    let better_count :=
      Orm.count (Orm.filter_gt player_value (Orm.annotate st (λ pk,
        Orm.sql_count (Orm.left_outer_join (Orm.filter_player pk (passes st)))))) in
    better_count + 1
  else if String.eqb stat_name "totalPotentialAssists" then
    let better_count :=
      Orm.count (Orm.filter_gt player_value (Orm.annotate st (λ pk,
        Orm.sql_count_filter Pass.potential_assist
          (Orm.left_outer_join (Orm.filter_player pk (passes st)))))) in
    better_count + 1
  else if String.eqb stat_name "totalTurnovers" then
    let better_count :=
      Orm.count (Orm.filter_gt player_value (Orm.annotate st (λ pk,
        let group := Orm.join_turnovers_passes st pk in
        Orm.sql_count (fst <$> group)
        + Orm.sql_count_filter Pass.turnover (snd <$> group)))) in
    better_count + 1
  else if String.eqb stat_name "totalPassingTurnovers" then
    let better_count :=
      Orm.count (Orm.filter_gt player_value (Orm.annotate st (λ pk,
        Orm.sql_count_filter Pass.turnover
          (Orm.left_outer_join (Orm.filter_player pk (passes st)))))) in
    better_count + 1
  else if String.eqb stat_name "pickAndRollCount" then
    count_better st (action_count st "pickAndRoll") player_value + 1
  else if String.eqb stat_name "isolationCount" then
    count_better st (action_count st "isolation") player_value + 1
  else if String.eqb stat_name "postUpCount" then
    count_better st (action_count st "postUp") player_value + 1
  else if String.eqb stat_name "offBallScreenCount" then
    count_better st (action_count st "offBallScreen") player_value + 1
  else 1.

(** [get_ranks(player_id, player_summary)]. *)
Definition get_ranks (st : Store) (player_id : string) (player_summary : summary_dict)
  : RankSet.t :=
  {| RankSet.totalShotAttemptsRank :=
       calculate_rank st "totalShotAttempts" (dict_get player_summary "totalShotAttempts" 0);
     RankSet.totalPointsRank :=
       calculate_rank st "totalPoints" (dict_get player_summary "totalPoints" 0);
     RankSet.totalPassesRank :=
       calculate_rank st "totalPasses" (dict_get player_summary "totalPasses" 0);
     RankSet.totalPotentialAssistsRank :=
       calculate_rank st "totalPotentialAssists"
         (dict_get player_summary "totalPotentialAssists" 0);
     RankSet.totalTurnoversRank :=
       calculate_rank st "totalTurnovers" (dict_get player_summary "totalTurnovers" 0);
     RankSet.totalPassingTurnoversRank :=
       calculate_rank st "totalPassingTurnovers"
         (dict_get player_summary "totalPassingTurnovers" 0);
     RankSet.pickAndRollCountRank :=
       calculate_rank st "pickAndRollCount" (dict_get player_summary "pickAndRollCount" 0);
     RankSet.isolationCountRank :=
       calculate_rank st "isolationCount" (dict_get player_summary "isolationCount" 0);
     RankSet.postUpCountRank :=
       calculate_rank st "postUpCount" (dict_get player_summary "postUpCount" 0);
     RankSet.offBallScreenCountRank :=
       calculate_rank st "offBallScreenCount"
         (dict_get player_summary "offBallScreenCount" 0) |}.

End Players.

(** ** Vocabulary of the statements *)

(** The four action types of the category breakdowns. *)
Definition action_types : list string :=
  ["pickAndRoll"; "isolation"; "postUp"; "offBallScreen"].

Definition recognised (a : string) : Prop := a ∈ action_types.

#[export] Instance recognised_dec a : Decision (recognised a).
Proof. unfold recognised. apply _. Defined.

(** [computeSummary] returned the summary [s] for [player_id]. *)
Definition summary_of (st : Store) (player_id : string) (s : PlayerSummary.t) : Prop :=
  Players.get_player_summary_stats st player_id = Py.Returns (StatsDict s).

(** The number of rows of a table that satisfy a condition. *)
Definition rows_where {A} (P : A → Prop) `{∀ x, Decision (P x)} (table : list A) : Z :=
  Z.of_nat (length (filter P table)).

(** The four category breakdowns of a summary, by action type. *)
Definition breakdowns (s : PlayerSummary.t) : list (string * ActionStats.t) :=
  [("pickAndRoll", PlayerSummary.pickAndRoll s);
   ("isolation", PlayerSummary.isolation s);
   ("postUp", PlayerSummary.postUp s);
   ("offBallScreen", PlayerSummary.offBallScreen s)].

(** The four action counts of a summary, by action type. *)
Definition action_counts (s : PlayerSummary.t) : list (string * Z) :=
  [("pickAndRoll", PlayerSummary.pickAndRollCount s);
   ("isolation", PlayerSummary.isolationCount s);
   ("postUp", PlayerSummary.postUpCount s);
   ("offBallScreen", PlayerSummary.offBallScreenCount s)].

(** A metric of the breakdowns, added up over the four categories. *)
Definition over_categories (metric : ActionStats.t → Z) (s : PlayerSummary.t) : Z :=
  metric (PlayerSummary.pickAndRoll s) + metric (PlayerSummary.isolation s)
  + metric (PlayerSummary.postUp s) + metric (PlayerSummary.offBallScreen s).


(** The ten metrics that are ranked, under the keys of the summary. *)
Definition tracked_metrics : list string :=
  ["totalShotAttempts"; "totalPoints"; "totalPasses"; "totalPotentialAssists";
   "totalTurnovers"; "totalPassingTurnovers";
   "pickAndRollCount"; "isolationCount"; "postUpCount"; "offBallScreenCount"].

(** The ranks of a rank set, each under the metric it ranks. *)
Definition ranks (r : RankSet.t) : list (string * Z) :=
  [("totalShotAttempts", RankSet.totalShotAttemptsRank r);
   ("totalPoints", RankSet.totalPointsRank r);
   ("totalPasses", RankSet.totalPassesRank r);
   ("totalPotentialAssists", RankSet.totalPotentialAssistsRank r);
   ("totalTurnovers", RankSet.totalTurnoversRank r);
   ("totalPassingTurnovers", RankSet.totalPassingTurnoversRank r);
   ("pickAndRollCount", RankSet.pickAndRollCountRank r);
   ("isolationCount", RankSet.isolationCountRank r);
   ("postUpCount", RankSet.postUpCountRank r);
   ("offBallScreenCount", RankSet.offBallScreenCountRank r)].

(** The value of a metric for a player of the league, derived from the
    player's events by the summary itself. *)
Definition metric_of (st : Store) (metric : string) (p : Z * Player.t) : Z :=
  dict_get (StatsDict (Players.player_summary st p.1 p.2)) metric 0.

(** One plus the number of players of the league whose value of the metric
    is strictly greater than [v]. *)
Definition expected_rank (st : Store) (metric : string) (v : Z) : Z :=
  1 + rows_where (λ p, metric_of st metric p > v) (Orm.all_players st).

(** [player_id] resolves to a player of the store. *)
Definition resolves (st : Store) (player_id : string) : Prop :=
  ∃ pk, Py.int player_id = Some pk ∧ is_Some (players st !! pk).

(** An event of one of the three kinds. *)
Inductive event :=
| AShot (e : Shot.t)
| APass (e : Pass.t)
| ATurnover (e : Turnover.t).

Definition event_player (ev : event) : Z :=
  match ev with
  | AShot e => player_of e
  | APass e => player_of e
  | ATurnover e => player_of e
  end.

Definition event_action_type (ev : event) : string :=
  match ev with
  | AShot e => action_type_of e
  | APass e => action_type_of e
  | ATurnover e => action_type_of e
  end.

Definition insert_at {A} (n : nat) (x : A) (l : list A) : list A :=
  take n l ++ x :: drop n l.

(** The store with one more event, returned at position [n] of its table. *)
Definition store_insert (n : nat) (ev : event) (st : Store) : Store :=
  match ev with
  | AShot e =>
      {| players := players st; shots := insert_at n e (shots st);
         passes := passes st; turnovers := turnovers st |}
  | APass e =>
      {| players := players st; shots := shots st;
         passes := insert_at n e (passes st); turnovers := turnovers st |}
  | ATurnover e =>
      {| players := players st; shots := shots st;
         passes := passes st; turnovers := insert_at n e (turnovers st) |}
  end.

(** A summary with its six overall totals raised, the action counts and
    the category breakdowns kept. *)
Definition add_totals
    (shot_attempts points passes potential_assists turnovers passing_turnovers : Z)
    (s : PlayerSummary.t) : PlayerSummary.t :=
  {| PlayerSummary.name := PlayerSummary.name s;
     PlayerSummary.playerID := PlayerSummary.playerID s;
     PlayerSummary.totalShotAttempts := PlayerSummary.totalShotAttempts s + shot_attempts;
     PlayerSummary.totalPoints := PlayerSummary.totalPoints s + points;
     PlayerSummary.totalPasses := PlayerSummary.totalPasses s + passes;
     PlayerSummary.totalPotentialAssists :=
       PlayerSummary.totalPotentialAssists s + potential_assists;
     PlayerSummary.totalTurnovers := PlayerSummary.totalTurnovers s + turnovers;
     PlayerSummary.totalPassingTurnovers :=
       PlayerSummary.totalPassingTurnovers s + passing_turnovers;
     PlayerSummary.pickAndRollCount := PlayerSummary.pickAndRollCount s;
     PlayerSummary.isolationCount := PlayerSummary.isolationCount s;
     PlayerSummary.postUpCount := PlayerSummary.postUpCount s;
     PlayerSummary.offBallScreenCount := PlayerSummary.offBallScreenCount s;
     PlayerSummary.pickAndRoll := PlayerSummary.pickAndRoll s;
     PlayerSummary.isolation := PlayerSummary.isolation s;
     PlayerSummary.postUp := PlayerSummary.postUp s;
     PlayerSummary.offBallScreen := PlayerSummary.offBallScreen s |}.

(** What one event adds to the overall totals. *)
Definition count_in_totals (ev : event) (s : PlayerSummary.t) : PlayerSummary.t :=
  match ev with
  | AShot e => add_totals 1 (Shot.points e) 0 0 0 0 s
  | APass e =>
      add_totals 0 0 1 (Z.b2z (Pass.potential_assist e))
        (Z.b2z (Pass.turnover e)) (Z.b2z (Pass.turnover e)) s
  | ATurnover e => add_totals 0 0 0 0 1 0 s
  end.

(** Two stores hold the same players and the same events, whatever the
    order in which each returns its rows. *)
Definition same_snapshot (st st' : Store) : Prop :=
  players st = players st'
  ∧ shots st ≡ₚ shots st'
  ∧ passes st ≡ₚ passes st'
  ∧ turnovers st ≡ₚ turnovers st'.

(** Two breakdowns with equal scalars and the same detail entries. *)
Definition stats_agree (b b' : ActionStats.t) : Prop :=
  ActionStats.totalShotAttempts b = ActionStats.totalShotAttempts b'
  ∧ ActionStats.totalPoints b = ActionStats.totalPoints b'
  ∧ ActionStats.totalPasses b = ActionStats.totalPasses b'
  ∧ ActionStats.totalPotentialAssists b = ActionStats.totalPotentialAssists b'
  ∧ ActionStats.totalTurnovers b = ActionStats.totalTurnovers b'
  ∧ ActionStats.totalPassingTurnovers b = ActionStats.totalPassingTurnovers b'
  ∧ ActionStats.shots b ≡ₚ ActionStats.shots b'
  ∧ ActionStats.passes b ≡ₚ ActionStats.passes b'
  ∧ ActionStats.turnovers b ≡ₚ ActionStats.turnovers b'.

(** Two summaries that differ at most in the order of their detail lists. *)
Definition summary_agree (s s' : PlayerSummary.t) : Prop :=
  PlayerSummary.name s = PlayerSummary.name s'
  ∧ PlayerSummary.playerID s = PlayerSummary.playerID s'
  ∧ (∀ m, dict_get (StatsDict s) m 0 = dict_get (StatsDict s') m 0)
  ∧ stats_agree (PlayerSummary.pickAndRoll s) (PlayerSummary.pickAndRoll s')
  ∧ stats_agree (PlayerSummary.isolation s) (PlayerSummary.isolation s')
  ∧ stats_agree (PlayerSummary.postUp s) (PlayerSummary.postUp s')
  ∧ stats_agree (PlayerSummary.offBallScreen s) (PlayerSummary.offBallScreen s').

(** Two results of [get_player_summary_stats] that differ at most in the
    order of the detail lists of a summary. *)
Definition result_agree (r r' : Py.outcome summary_dict) : Prop :=
  match r, r' with
  | Py.Returns (StatsDict s), Py.Returns (StatsDict s') => summary_agree s s'
  | _, _ => r = r'
  end.

(** A shot reduced to its action type and its points. *)
Definition shot_kind (e : Shot.t) : string * Z := (Shot.action_type e, Shot.points e).

(** ** Small leagues on which the statements are run *)

Module Fixture.

Definition origin : coord := QArith_base.Qmake 0 1.
Definition corner : coord := QArith_base.Qmake 22 1.

Definition player (name : string) : Player.t :=
  {| Player.name := name; Player.team_id := 1 |}.

Definition shot (id pk points : Z) (action_type : string) : Shot.t :=
  {| Shot.id := id; Shot.player_id := pk; Shot.game_id := 1;
     Shot.points := points; Shot.shooting_foul_drawn := false;
     Shot.shot_loc_x := corner; Shot.shot_loc_y := origin;
     Shot.action_type := action_type |}.

Definition pass (id pk : Z) (potential_assist turnover : bool) (action_type : string)
  : Pass.t :=
  {| Pass.id := id; Pass.player_id := pk; Pass.game_id := 1;
     Pass.completed_pass := negb turnover;
     Pass.potential_assist := potential_assist; Pass.turnover := turnover;
     Pass.ball_start_loc_x := origin; Pass.ball_start_loc_y := origin;
     Pass.ball_end_loc_x := corner; Pass.ball_end_loc_y := origin;
     Pass.action_type := action_type |}.

Definition turnover (id pk : Z) (action_type : string) : Turnover.t :=
  {| Turnover.id := id; Turnover.player_id := pk; Turnover.game_id := 1;
     Turnover.tov_loc_x := origin; Turnover.tov_loc_y := corner;
     Turnover.action_type := action_type |}.

Definition three_players : gmap Z Player.t :=
  {[ 1 := player "Ada"; 2 := player "Ben"; 3 := player "Cy" ]}.

(** Player 1 has three pick-and-roll shots worth 2, 2 and 3 points and
    one isolation shot worth 0 points, and neither passes nor turnovers. *)
Definition league : Store :=
  {| players := three_players;
     shots := [shot 1 1 2 "pickAndRoll"; shot 2 2 3 "postUp";
               shot 3 1 2 "pickAndRoll"; shot 4 1 0 "isolation";
               shot 5 1 3 "pickAndRoll"];
     passes := [pass 1 2 false true "postUp"; pass 2 2 true false "isolation";
                pass 3 3 false false "offBallScreen"];
     turnovers := [turnover 1 2 "offBallScreen"; turnover 2 3 "isolation"] |}.

(** The same rows as [league], returned in the opposite order. *)
Definition league_reordered : Store :=
  {| players := players league;
     shots := reverse (shots league);
     passes := reverse (passes league);
     turnovers := reverse (turnovers league) |}.

(** Player 1 has one shot whose action type is none of the four. *)
Definition league_with_transition : Store :=
  {| players := three_players;
     shots := [shot 1 1 2 "transition"];
     passes := [];
     turnovers := [] |}.

(** Players 1 and 2 have one turnover row each and no passing turnover;
    player 2 also has two passes. *)
Definition league_turnovers : Store :=
  {| players := {[ 1 := player "Ada"; 2 := player "Ben" ]};
     shots := [];
     passes := [pass 1 2 false false "isolation"; pass 2 2 false false "isolation"];
     turnovers := [turnover 1 1 "postUp"; turnover 2 2 "postUp"] |}.

(** Players 1 and 2 have 50 points each, player 3 has 40. *)
Definition league_tied : Store :=
  {| players := three_players;
     shots := ((λ id, shot id 1 2 "isolation") <$> seqZ 1 25)
              ++ ((λ id, shot id 2 2 "postUp") <$> seqZ 26 25)
              ++ ((λ id, shot id 3 2 "pickAndRoll") <$> seqZ 51 20);
     passes := [];
     turnovers := [] |}.

(** Player 1 has one turnover row and one pass, flagged as a turnover;
    player 2 has two turnover rows and no pass. *)
Definition league_single_pass : Store :=
  {| players := {[ 1 := player "Ada"; 2 := player "Ben" ]};
     shots := [];
     passes := [pass 1 1 false true "isolation"];
     turnovers := [turnover 1 1 "postUp"; turnover 2 2 "postUp";
                   turnover 3 2 "isolation"] |}.

End Fixture.


(** ** Vocabulary of the further statements *)

(** The number of the player's rows in the turnovers table. *)
Definition turnover_rows (st : Store) (pk : Z) : Z :=
  Orm.count (Orm.filter_player pk (turnovers st)).

(** The number of the player's passes. *)
Definition pass_rows (st : Store) (pk : Z) : Z :=
  Orm.count (Orm.filter_player pk (passes st)).

(** The number of the player's passes flagged as turnovers. *)
Definition passing_turnover_rows (st : Store) (pk : Z) : Z :=
  Orm.count (filter (λ p, Pass.turnover p = true) (Orm.filter_player pk (passes st))).

(** The value that the branch of [calculate_rank] for a stat name compares,
    player by player, with [player_value]; [None] for a name that has no
    branch. For ["totalTurnovers"] it is the count over the joined group. *)
Definition compared_value (st : Store) (stat_name : string) : option (Z → Z) :=
  if String.eqb stat_name "totalShotAttempts" then
    Some (λ pk, Orm.count (Orm.filter_player pk (shots st)))
  else if String.eqb stat_name "totalPoints" then
    Some (λ pk, Py.sum (Shot.points <$> Orm.filter_player pk (shots st)))
  else if String.eqb stat_name "totalPasses" then
    Some (pass_rows st)
  else if String.eqb stat_name "totalPotentialAssists" then
    Some (λ pk, Orm.count (filter (λ p, Pass.potential_assist p = true)
                             (Orm.filter_player pk (passes st))))
  else if String.eqb stat_name "totalTurnovers" then
    Some (λ pk, turnover_rows st pk * Z.max 1 (pass_rows st pk)
                + passing_turnover_rows st pk * Z.max 1 (turnover_rows st pk))
  else if String.eqb stat_name "totalPassingTurnovers" then
    Some (passing_turnover_rows st)
  else if String.eqb stat_name "pickAndRollCount" then
    Some (Players.action_count st "pickAndRoll")
  else if String.eqb stat_name "isolationCount" then
    Some (Players.action_count st "isolation")
  else if String.eqb stat_name "postUpCount" then
    Some (Players.action_count st "postUp")
  else if String.eqb stat_name "offBallScreenCount" then
    Some (Players.action_count st "offBallScreen")
  else None.

(** The number of the player's rows of a table whose action type is none
    of the four. *)
Definition unrecognised_rows `{Event A} (pk : Z) (table : list A) : Z :=
  rows_where (λ e, player_of e = pk ∧ ¬ recognised (action_type_of e)) table.

(** The breakdown of a category without events. *)
Definition empty_stats : ActionStats.t :=
  {| ActionStats.totalShotAttempts := 0;
     ActionStats.totalPoints := 0;
     ActionStats.totalPasses := 0;
     ActionStats.totalPotentialAssists := 0;
     ActionStats.totalTurnovers := 0;
     ActionStats.totalPassingTurnovers := 0;
     ActionStats.shots := [];
     ActionStats.passes := [];
     ActionStats.turnovers := [] |}.

(** The action count that a summary holds for an action type. *)
Definition action_count_of (s : PlayerSummary.t) (a : string) : Z :=
  if String.eqb a "pickAndRoll" then PlayerSummary.pickAndRollCount s
  else if String.eqb a "isolation" then PlayerSummary.isolationCount s
  else if String.eqb a "postUp" then PlayerSummary.postUpCount s
  else if String.eqb a "offBallScreen" then PlayerSummary.offBallScreenCount s
  else 0.

(** The six scalars of a breakdown, in the order of the dictionary. *)
Definition stats_scalars (b : ActionStats.t) : list Z :=
  [ActionStats.totalShotAttempts b; ActionStats.totalPoints b;
   ActionStats.totalPasses b; ActionStats.totalPotentialAssists b;
   ActionStats.totalTurnovers b; ActionStats.totalPassingTurnovers b].

(** The six overall totals of a summary, in the order of the dictionary. *)
Definition summary_totals (s : PlayerSummary.t) : list Z :=
  [PlayerSummary.totalShotAttempts s; PlayerSummary.totalPoints s;
   PlayerSummary.totalPasses s; PlayerSummary.totalPotentialAssists s;
   PlayerSummary.totalTurnovers s; PlayerSummary.totalPassingTurnovers s].

(** What one event adds to the six scalars it is counted in. *)
Definition event_deltas (ev : event) : list Z :=
  match ev with
  | AShot e => [1; Shot.points e; 0; 0; 0; 0]
  | APass e =>
      [0; 0; 1; Z.b2z (Pass.potential_assist e);
       Z.b2z (Pass.turnover e); Z.b2z (Pass.turnover e)]
  | ATurnover e => [0; 0; 0; 0; 1; 0]
  end.

(** ** The tables written by the loader ([dbmodels/models.py]) *)

Module Team.
(** A row of [teams], held under its primary key [team_id]. *)
Record t := { name : string }.
End Team.

Module Game.
(** A row of [games], held under its primary key [id]; the date is kept as
    the text of the data file. *)
Record t := { date : string }.
End Game.

Module Db.

(** The six tables, each keyed by its primary key. *)
Record t := {
  teams : gmap Z Team.t;
  games : gmap Z Game.t;
  players : gmap Z Player.t;
  shots : gmap Z Shot.t;
  passes : gmap Z Pass.t;
  turnovers : gmap Z Turnover.t
}.

Definition empty : t :=
  {| teams := ∅; games := ∅; players := ∅; shots := ∅; passes := ∅; turnovers := ∅ |}.

Definition put_team (k : Z) (row : Team.t) (db : t) : t :=
  {| teams := <[k := row]> (teams db); games := games db; players := players db;
     shots := shots db; passes := passes db; turnovers := turnovers db |}.

Definition put_game (k : Z) (row : Game.t) (db : t) : t :=
  {| teams := teams db; games := <[k := row]> (games db); players := players db;
     shots := shots db; passes := passes db; turnovers := turnovers db |}.

Definition put_player (k : Z) (row : Player.t) (db : t) : t :=
  {| teams := teams db; games := games db; players := <[k := row]> (players db);
     shots := shots db; passes := passes db; turnovers := turnovers db |}.

Definition put_shot (row : Shot.t) (db : t) : t :=
  {| teams := teams db; games := games db; players := players db;
     shots := <[Shot.id row := row]> (shots db);
     passes := passes db; turnovers := turnovers db |}.

Definition put_pass (row : Pass.t) (db : t) : t :=
  {| teams := teams db; games := games db; players := players db;
     shots := shots db; passes := <[Pass.id row := row]> (passes db);
     turnovers := turnovers db |}.

Definition put_turnover (row : Turnover.t) (db : t) : t :=
  {| teams := teams db; games := games db; players := players db;
     shots := shots db; passes := passes db;
     turnovers := <[Turnover.id row := row]> (turnovers db) |}.

End Db.


(** ** The content of the data files, as [json.load] returns it

    Each object is taken with the keys that the loader indexes; the lists
    [shots], [passes] and [turnovers] of a player, read with
    [get(key, [])], may be absent. *)

Module JsonTeam.
Record t := { team_id : Z; name : string }.
End JsonTeam.

Module JsonGame.
Record t := { id : Z; date : string }.
End JsonGame.

Module JsonShot.
Record t := {
  id : Z;
  game_id : Z;
  points : Z;
  shooting_foul_drawn : bool;
  shot_loc_x : coord;
  shot_loc_y : coord;
  action_type : string
}.
End JsonShot.

Module JsonPass.
Record t := {
  id : Z;
  game_id : Z;
  completed_pass : bool;
  potential_assist : bool;
  turnover : bool;
  ball_start_loc_x : coord;
  ball_start_loc_y : coord;
  ball_end_loc_x : coord;
  ball_end_loc_y : coord;
  action_type : string
}.
End JsonPass.

Module JsonTurnover.
Record t := {
  id : Z;
  game_id : Z;
  tov_loc_x : coord;
  tov_loc_y : coord;
  action_type : string
}.
End JsonTurnover.

Module JsonPlayer.
Record t := {
  player_id : Z;
  name : string;
  team_id : Z;
  shots : option (list JsonShot.t);
  passes : option (list JsonPass.t);
  turnovers : option (list JsonTurnover.t)
}.
End JsonPlayer.

(** ** [scripts/load_data.py]

    Each loader is taken from the point where the content of its file has
    been parsed; it is a sequence of [update_or_create] calls on the
    database. The lines printed on the way are not part of the model.

    The refusals of the model are those of the foreign keys. A write is
    refused for other reasons as well: a date that is none
    ([ValidationError]), an integer out of the range of its column or a
    text longer than its column ([DataError]). A run with such a value
    raises where the model goes on, so the statements on the loader are
    about runs that returned, or hold whether the run returns or raises.
    A coordinate is kept as the number of the data file, where the
    database stores the nearest double, and a date as its text; the
    statements on the loader do not tell the coordinates or the date of a
    stored row. *)

Module LoadData.

(** The exception of the model: a foreign key that points at no row. *)
Inductive error := IntegrityError.

(** A step of the script: it runs on the database, leaves a database, and
    either returns or raises. What was written before an exception stays
    written: every [update_or_create] is committed on its own. *)
Definition M (A : Type) : Type := Db.t → Db.t * (A + error).

Definition ret {A} (a : A) : M A := λ db, (db, inl a).

Definition bind {A B} (m : M A) (k : A → M B) : M B :=
  λ db, match m db with
        | (db', inl a) => k a db'
        | (db', inr e) => (db', inr e)
        end.

(** [for x in xs: body(x)] *)
Fixpoint for_each {A} (xs : list A) (body : A → M unit) : M unit :=
  match xs with
  | [] => ret tt
  | x :: xs' => bind (body x) (λ _, for_each xs' body)
  end.

(** A write that the database accepts when the foreign keys of the row
    point at rows, and refuses otherwise. *)
Definition write_checked (fk_ok : Db.t → Prop) `{∀ db, Decision (fk_ok db)}
    (write : Db.t → Db.t) : M unit :=
  λ db, if decide (fk_ok db) then (write db, inl tt) else (db, inr IntegrityError).

(** [Team.objects.update_or_create(team_id=..., defaults={'name': ...})].
    The defaults hold every other column, so the row found is overwritten
    and the row missing is created with the same content. *)
Definition Team_update_or_create (team_id : Z) (name : string) : M unit :=
  write_checked (λ _, True) (Db.put_team team_id {| Team.name := name |}).

(** [Game.objects.update_or_create(id=..., defaults={'date': ...})] *)
Definition Game_update_or_create (id : Z) (date : string) : M unit :=
  write_checked (λ _, True) (Db.put_game id {| Game.date := date |}).

(** [Player.objects.update_or_create(player_id=..., defaults={...})]; the
    object returned is given by its [player_id]. *)
Definition Player_update_or_create (player_id : Z) (name : string) (team_id : Z)
  : M Z :=
  bind (write_checked (λ db, is_Some (Db.teams db !! team_id))
          (Db.put_player player_id {| Player.name := name; Player.team_id := team_id |}))
       (λ _, ret player_id).

(** [Shot.objects.update_or_create(id=..., defaults={...})] *)
Definition Shot_update_or_create (row : Shot.t) : M unit :=
  write_checked (λ db, is_Some (Db.players db !! Shot.player_id row)
                       ∧ is_Some (Db.games db !! Shot.game_id row))
    (Db.put_shot row).

(** [Pass.objects.update_or_create(id=..., defaults={...})] *)
Definition Pass_update_or_create (row : Pass.t) : M unit :=
  write_checked (λ db, is_Some (Db.players db !! Pass.player_id row)
                       ∧ is_Some (Db.games db !! Pass.game_id row))
    (Db.put_pass row).

(** [Turnover.objects.update_or_create(id=..., defaults={...})] *)
Definition Turnover_update_or_create (row : Turnover.t) : M unit :=
  write_checked (λ db, is_Some (Db.players db !! Turnover.player_id row)
                       ∧ is_Some (Db.games db !! Turnover.game_id row))
    (Db.put_turnover row).

(** The row written for an entry of [shots] of a player. *)
Definition shot_row (player_id : Z) (shot_data : JsonShot.t) : Shot.t :=
  {| Shot.id := JsonShot.id shot_data;
     Shot.player_id := player_id;
     Shot.game_id := JsonShot.game_id shot_data;
     Shot.points := JsonShot.points shot_data;
     Shot.shooting_foul_drawn := JsonShot.shooting_foul_drawn shot_data;
     Shot.shot_loc_x := JsonShot.shot_loc_x shot_data;
     Shot.shot_loc_y := JsonShot.shot_loc_y shot_data;
     Shot.action_type := JsonShot.action_type shot_data |}.

(** The row written for an entry of [passes] of a player. *)
Definition pass_row (player_id : Z) (pass_data : JsonPass.t) : Pass.t :=
  {| Pass.id := JsonPass.id pass_data;
     Pass.player_id := player_id;
     Pass.game_id := JsonPass.game_id pass_data;
     Pass.completed_pass := JsonPass.completed_pass pass_data;
     Pass.potential_assist := JsonPass.potential_assist pass_data;
     Pass.turnover := JsonPass.turnover pass_data;
     Pass.ball_start_loc_x := JsonPass.ball_start_loc_x pass_data;
     Pass.ball_start_loc_y := JsonPass.ball_start_loc_y pass_data;
     Pass.ball_end_loc_x := JsonPass.ball_end_loc_x pass_data;
     Pass.ball_end_loc_y := JsonPass.ball_end_loc_y pass_data;
     Pass.action_type := JsonPass.action_type pass_data |}.

(** The row written for an entry of [turnovers] of a player. *)
Definition turnover_row (player_id : Z) (tov_data : JsonTurnover.t) : Turnover.t :=
  {| Turnover.id := JsonTurnover.id tov_data;
     Turnover.player_id := player_id;
     Turnover.game_id := JsonTurnover.game_id tov_data;
     Turnover.tov_loc_x := JsonTurnover.tov_loc_x tov_data;
     Turnover.tov_loc_y := JsonTurnover.tov_loc_y tov_data;
     Turnover.action_type := JsonTurnover.action_type tov_data |}.

(** [load_teams], on the parsed content of [teams.json]. *)
Definition load_teams (teams_data : list JsonTeam.t) : M unit :=
  for_each teams_data (λ team_data,
    Team_update_or_create (JsonTeam.team_id team_data) (JsonTeam.name team_data)).

(** [load_games], on the parsed content of [games.json]. *)
Definition load_games (games_data : list JsonGame.t) : M unit :=
  for_each games_data (λ game_data,
    Game_update_or_create (JsonGame.id game_data) (JsonGame.date game_data)).

(** [load_players], on the parsed content of [players.json]. *)
Definition load_players (players_data : list JsonPlayer.t) : M unit :=
  for_each players_data (λ player_data,
    bind (Player_update_or_create (JsonPlayer.player_id player_data)
            (JsonPlayer.name player_data) (JsonPlayer.team_id player_data))
      (λ player,
    bind (for_each (default [] (JsonPlayer.shots player_data)) (λ shot_data,
            Shot_update_or_create (shot_row player shot_data)))
      (λ _,
    bind (for_each (default [] (JsonPlayer.passes player_data)) (λ pass_data,
            Pass_update_or_create (pass_row player pass_data)))
      (λ _,
    for_each (default [] (JsonPlayer.turnovers player_data)) (λ tov_data,
      Turnover_update_or_create (turnover_row player tov_data)))))).

(** [main]: the three loads in the order of the foreign keys. *)
Definition main (teams_data : list JsonTeam.t) (games_data : list JsonGame.t)
    (players_data : list JsonPlayer.t) : M unit :=
  bind (load_teams teams_data) (λ _,
  bind (load_games games_data) (λ _,
  load_players players_data)).

End LoadData.

(** ** Vocabulary of the statements on the loader *)

(** A table after the writes of a list of rows, in their order. *)
Definition upserts {V} (rows : list (Z * V)) (table : gmap Z V) : gmap Z V :=
  foldl (λ m kv, <[kv.1 := kv.2]> m) table rows.

(** No row of any table of [db] is missing from [db']. *)
Definition keeps_rows (db db' : Db.t) : Prop :=
  dom (Db.teams db) ⊆ dom (Db.teams db')
  ∧ dom (Db.games db) ⊆ dom (Db.games db')
  ∧ dom (Db.players db) ⊆ dom (Db.players db')
  ∧ dom (Db.shots db) ⊆ dom (Db.shots db')
  ∧ dom (Db.passes db) ⊆ dom (Db.passes db')
  ∧ dom (Db.turnovers db) ⊆ dom (Db.turnovers db').

(** The game ids that the events of a player of the data file refer to. *)
Definition game_ids (player_data : JsonPlayer.t) : list Z :=
  (JsonShot.game_id <$> default [] (JsonPlayer.shots player_data))
  ++ (JsonPass.game_id <$> default [] (JsonPlayer.passes player_data))
  ++ (JsonTurnover.game_id <$> default [] (JsonPlayer.turnovers player_data)).

(** The team is in the data file or already in the database. *)
Definition team_known (teams_data : list JsonTeam.t) (db : Db.t) (k : Z) : Prop :=
  k ∈ JsonTeam.team_id <$> teams_data ∨ is_Some (Db.teams db !! k).

(** The game is in the data file or already in the database. *)
Definition game_known (games_data : list JsonGame.t) (db : Db.t) (k : Z) : Prop :=
  k ∈ JsonGame.id <$> games_data ∨ is_Some (Db.games db !! k).

(** The shot rows that the data file holds, player by player. *)
Definition shot_rows_of (players_data : list JsonPlayer.t) : list Shot.t :=
  player_data ← players_data;
  LoadData.shot_row (JsonPlayer.player_id player_data)
    <$> default [] (JsonPlayer.shots player_data).

(** The pass rows that the data file holds, player by player. *)
Definition pass_rows_of (players_data : list JsonPlayer.t) : list Pass.t :=
  player_data ← players_data;
  LoadData.pass_row (JsonPlayer.player_id player_data)
    <$> default [] (JsonPlayer.passes player_data).

(** The turnover rows that the data file holds, player by player. *)
Definition turnover_rows_of (players_data : list JsonPlayer.t) : list Turnover.t :=
  player_data ← players_data;
  LoadData.turnover_row (JsonPlayer.player_id player_data)
    <$> default [] (JsonPlayer.turnovers player_data).




(** The player row that the data file holds for an entry. *)
Definition player_row_of (player_data : JsonPlayer.t) : Player.t :=
  {| Player.name := JsonPlayer.name player_data;
     Player.team_id := JsonPlayer.team_id player_data |}.

(** The database after every write of [main], when none is refused. *)
Definition loaded (teams_data : list JsonTeam.t) (games_data : list JsonGame.t)
    (players_data : list JsonPlayer.t) (db : Db.t) : Db.t :=
  {| Db.teams :=
       upserts ((λ t, (JsonTeam.team_id t, {| Team.name := JsonTeam.name t |}))
                  <$> teams_data) (Db.teams db);
     Db.games :=
       upserts ((λ g, (JsonGame.id g, {| Game.date := JsonGame.date g |}))
                  <$> games_data) (Db.games db);
     Db.players :=
       upserts ((λ p, (JsonPlayer.player_id p, player_row_of p)) <$> players_data)
         (Db.players db);
     Db.shots :=
       upserts ((λ r, (Shot.id r, r)) <$> shot_rows_of players_data) (Db.shots db);
     Db.passes :=
       upserts ((λ r, (Pass.id r, r)) <$> pass_rows_of players_data) (Db.passes db);
     Db.turnovers :=
       upserts ((λ r, (Turnover.id r, r)) <$> turnover_rows_of players_data)
         (Db.turnovers db) |}.

(** Data files on which the loader is run. *)
Module DataFixture.

Definition teams_data : list JsonTeam.t :=
  [{| JsonTeam.team_id := 1; JsonTeam.name := "Thunder" |};
   {| JsonTeam.team_id := 2; JsonTeam.name := "Mavericks" |}].

Definition games_data : list JsonGame.t :=
  [{| JsonGame.id := 10; JsonGame.date := "2023-01-01" |};
   {| JsonGame.id := 11; JsonGame.date := "2023-01-03" |}].

Definition shot_data (id game_id points : Z) (action_type : string) : JsonShot.t :=
  {| JsonShot.id := id; JsonShot.game_id := game_id; JsonShot.points := points;
     JsonShot.shooting_foul_drawn := false;
     JsonShot.shot_loc_x := Fixture.corner; JsonShot.shot_loc_y := Fixture.origin;
     JsonShot.action_type := action_type |}.

Definition pass_data (id game_id : Z) (turnover : bool) (action_type : string)
  : JsonPass.t :=
  {| JsonPass.id := id; JsonPass.game_id := game_id;
     JsonPass.completed_pass := negb turnover; JsonPass.potential_assist := false;
     JsonPass.turnover := turnover;
     JsonPass.ball_start_loc_x := Fixture.origin;
     JsonPass.ball_start_loc_y := Fixture.origin;
     JsonPass.ball_end_loc_x := Fixture.corner;
     JsonPass.ball_end_loc_y := Fixture.origin;
     JsonPass.action_type := action_type |}.

Definition tov_data (id game_id : Z) (action_type : string) : JsonTurnover.t :=
  {| JsonTurnover.id := id; JsonTurnover.game_id := game_id;
     JsonTurnover.tov_loc_x := Fixture.origin; JsonTurnover.tov_loc_y := Fixture.corner;
     JsonTurnover.action_type := action_type |}.

(** Two players; the second one has no [turnovers] key. *)
Definition players_data : list JsonPlayer.t :=
  [{| JsonPlayer.player_id := 1; JsonPlayer.name := "Ada"; JsonPlayer.team_id := 1;
      JsonPlayer.shots := Some [shot_data 1 10 2 "pickAndRoll"; shot_data 2 11 3 "postUp"];
      JsonPlayer.passes := Some [pass_data 1 10 true "postUp"];
      JsonPlayer.turnovers := Some [tov_data 1 11 "isolation"] |};
   {| JsonPlayer.player_id := 2; JsonPlayer.name := "Ben"; JsonPlayer.team_id := 2;
      JsonPlayer.shots := Some [shot_data 3 10 0 "isolation"];
      JsonPlayer.passes := Some [];
      JsonPlayer.turnovers := None |}].

(** A player of a team that no file holds. *)
Definition stray_players_data : list JsonPlayer.t :=
  [{| JsonPlayer.player_id := 3; JsonPlayer.name := "Cy"; JsonPlayer.team_id := 9;
      JsonPlayer.shots := None; JsonPlayer.passes := None;
      JsonPlayer.turnovers := None |}].

End DataFixture.

(** The foreign keys of a player of the data file and of the player's
    events point at rows of the database. *)
Definition player_ok (db : Db.t) (player_data : JsonPlayer.t) : Prop :=
  is_Some (Db.teams db !! JsonPlayer.team_id player_data)
  ∧ Forall (λ g, is_Some (Db.games db !! g)) (game_ids player_data).

#[export] Instance player_ok_dec db player_data : Decision (player_ok db player_data).
Proof. unfold player_ok. apply _. Defined.

(** The writes of one round of the loop of [load_players]. *)
Definition player_writes (player_data : JsonPlayer.t) (db : Db.t) : Db.t :=
  let player := JsonPlayer.player_id player_data in
  foldl (λ d tov_data, Db.put_turnover (LoadData.turnover_row player tov_data) d)
    (foldl (λ d pass_data, Db.put_pass (LoadData.pass_row player pass_data) d)
       (foldl (λ d shot_data, Db.put_shot (LoadData.shot_row player shot_data) d)
          (Db.put_player player (player_row_of player_data) db)
          (default [] (JsonPlayer.shots player_data)))
       (default [] (JsonPlayer.passes player_data)))
    (default [] (JsonPlayer.turnovers player_data)).

(** Every team and every game that the players file refers to is in the
    teams file, the games file, or already in the database. *)
Definition keys_resolve (teams_data : list JsonTeam.t) (games_data : list JsonGame.t)
    (players_data : list JsonPlayer.t) (db : Db.t) : Prop :=
  Forall (λ p, team_known teams_data db (JsonPlayer.team_id p)
               ∧ Forall (game_known games_data db) (game_ids p))
         players_data.

#[export] Instance keys_resolve_dec teams_data games_data players_data db :
  Decision (keys_resolve teams_data games_data players_data db).
Proof. unfold keys_resolve, team_known, game_known. apply _. Defined.



(** ** Sums and counts *)

Section Sums.

Lemma foldl_add_shift (l : list Z) (a : Z) :
  foldl Z.add a l = a + foldl Z.add 0 l.
Proof.
  revert a. induction l as [|x l IH]; intros a; simpl.
  - lia.
  - rewrite (IH (a + x)), (IH (0 + x)). lia.
Qed.

Lemma sum_nil : Py.sum [] = 0.
Proof. reflexivity. Qed.

Lemma sum_cons (x : Z) (l : list Z) : Py.sum (x :: l) = x + Py.sum l.
Proof. unfold Py.sum. simpl. apply foldl_add_shift. Qed.

Lemma sum_app (l1 l2 : list Z) : Py.sum (l1 ++ l2) = Py.sum l1 + Py.sum l2.
Proof.
  induction l1 as [|x l1 IH]; simpl.
  - rewrite sum_nil. lia.
  - rewrite !sum_cons, IH. lia.
Qed.

Lemma sum_foldr (l : list Z) : Py.sum l = foldr Z.add 0 l.
Proof.
  induction l as [|x l IH]; [done|].
  rewrite sum_cons, IH. done.
Qed.

#[export] Instance sum_perm : Proper ((≡ₚ) ==> (=)) Py.sum.
Proof.
  intros l1 l2 Hp. induction Hp as [|x l1 l2 _ IH|x y l|l1 l2 l3 _ IH1 _ IH2].
  - done.
  - by rewrite !sum_cons, IH.
  - rewrite !sum_cons. lia.
  - congruence.
Qed.

(** A count is the sum of the indicator of its condition. *)
Lemma count_filter_sum {A} (P : A → Prop) `{∀ x, Decision (P x)} (l : list A) :
  Orm.count (filter P l) = Py.sum ((λ x, if decide (P x) then 1 else 0) <$> l).
Proof.
  unfold Orm.count. induction l as [|x l IH]; [done|].
  rewrite filter_cons, fmap_cons, sum_cons, <- IH.
  destruct (decide (P x)); simpl; lia.
Qed.

Lemma count_sum_ones {A} (l : list A) :
  Orm.count l = Py.sum ((λ _, 1) <$> l).
Proof.
  unfold Orm.count. induction l as [|x l IH]; [done|].
  rewrite fmap_cons, sum_cons, <- IH. simpl. lia.
Qed.

End Sums.

(** ** Splitting a query set by action type *)

Section ByAction.
Context `{Event A}.

(** Every weighted total over a query set is the total over its four
    categories plus the total over the rows of no category. *)
Lemma sum_by_action (w : A → Z) (qs : list A) :
  Py.sum (w <$> qs)
  = Py.sum (w <$> Orm.filter_action "pickAndRoll" qs)
    + Py.sum (w <$> Orm.filter_action "isolation" qs)
    + Py.sum (w <$> Orm.filter_action "postUp" qs)
    + Py.sum (w <$> Orm.filter_action "offBallScreen" qs)
    + Py.sum (w <$> filter (λ e, ¬ recognised (action_type_of e)) qs).
Proof.
  unfold Orm.filter_action.
  induction qs as [|e qs IH]; [done|].
  rewrite !filter_cons, fmap_cons, sum_cons, IH.
  destruct (decide (recognised (action_type_of e))) as [Hr|Hr].
  - rewrite (decide_False (P := ¬ _)) by tauto.
    unfold recognised, action_types in Hr.
    rewrite !elem_of_cons, elem_of_nil in Hr.
    destruct Hr as [Ha|[Ha|[Ha|[Ha|[]]]]]; rewrite Ha;
      repeat (first [rewrite decide_True by done | rewrite decide_False by done]);
      rewrite ?fmap_cons, ?sum_cons; lia.
  - rewrite (decide_True (P := ¬ _)) by done.
    assert (Hne : ∀ a, a ∈ action_types → action_type_of e ≠ a).
    { intros a Ha Heq. apply Hr. unfold recognised. by rewrite Heq. }
    rewrite !decide_False
      by (apply Hne; unfold action_types; rewrite !elem_of_cons; tauto).
    rewrite fmap_cons, sum_cons. lia.
Qed.

Lemma filter_unrecognised_nil (qs : list A) :
  Forall (λ e, recognised (action_type_of e)) qs →
  filter (λ e, ¬ recognised (action_type_of e)) qs = [].
Proof.
  induction 1 as [|e qs He _ IH]; [done|].
  rewrite filter_cons, decide_False by tauto. done.
Qed.

Lemma filter_action_unrecognised (a : string) (e : A) (l1 l2 : list A) :
  recognised a → ¬ recognised (action_type_of e) →
  Orm.filter_action a (l1 ++ e :: l2) = Orm.filter_action a (l1 ++ l2).
Proof.
  intros Ha He. unfold Orm.filter_action.
  rewrite !filter_app, filter_cons, decide_False; [done|].
  intros Heq. apply He. by rewrite Heq.
Qed.

Lemma filter_player_insert (pk : Z) (e : A) (l1 l2 : list A) :
  player_of e = pk →
  Orm.filter_player pk (l1 ++ e :: l2)
  = Orm.filter_player pk l1 ++ e :: Orm.filter_player pk l2.
Proof.
  intros He. unfold Orm.filter_player.
  by rewrite filter_app, filter_cons, decide_True.
Qed.

Lemma filter_player_app (pk : Z) (l1 l2 : list A) :
  Orm.filter_player pk (l1 ++ l2)
  = Orm.filter_player pk l1 ++ Orm.filter_player pk l2.
Proof. apply filter_app. Qed.

End ByAction.

(** ** The summary *)

Section Summary.

Lemma summary_of_inv st player_id s :
  summary_of st player_id s →
  ∃ pk player,
    Py.int player_id = Some pk ∧ players st !! pk = Some player
    ∧ s = Players.player_summary st pk player.
Proof.
  unfold summary_of, Players.get_player_summary_stats. intros Hs.
  destruct (Py.int player_id) as [pk|]; [|done].
  destruct (players st !! pk) as [player|] eqn:Hp; [|done].
  exists pk, player. by inversion Hs.
Qed.

Lemma breakdowns_summary st pk player a b :
  (a, b) ∈ breakdowns (Players.player_summary st pk player) →
  recognised a
  ∧ b = Players.get_action_stats
          (Orm.filter_player pk (shots st)) (Orm.filter_player pk (passes st))
          (Orm.filter_player pk (turnovers st)) a.
Proof.
  unfold breakdowns, recognised, action_types. rewrite !elem_of_cons, elem_of_nil.
  intros [Heq|[Heq|[Heq|[Heq|[]]]]]; inversion Heq; subst;
    (split; [auto 6 | reflexivity]).
Qed.

Lemma count_player_action `{Event A} (pk : Z) (a : string) (table : list A) :
  Orm.count (Orm.filter_action a (Orm.filter_player pk table))
  = rows_where (λ e, player_of e = pk ∧ action_type_of e = a) table.
Proof.
  unfold Orm.count, Orm.filter_action, Orm.filter_player, rows_where.
  rewrite list_filter_filter. do 2 f_equal.
  apply list_filter_iff. tauto.
Qed.

End Summary.

(** C3. In every summary that [get_player_summary_stats] returns,
    [totalTurnovers] is [totalPassingTurnovers] plus the number of the
    player's rows in the turnovers table, and in each of the four category
    breakdowns it is that breakdown's [totalPassingTurnovers] plus the
    number of the player's turnover rows of that action type. *)
Theorem total_turnovers_split st player_id s :
  summary_of st player_id s →
  let pk := PlayerSummary.playerID s in
  PlayerSummary.totalTurnovers s
  = PlayerSummary.totalPassingTurnovers s
    + rows_where (λ t, Turnover.player_id t = pk) (turnovers st)
  ∧ ∀ a b, (a, b) ∈ breakdowns s →
      ActionStats.totalTurnovers b
      = ActionStats.totalPassingTurnovers b
        + rows_where (λ t, Turnover.player_id t = pk ∧ Turnover.action_type t = a)
            (turnovers st).
Proof.
  intros (pk & player & _ & _ & ->)%summary_of_inv. simpl. split.
  - unfold Orm.count, Orm.filter_player, rows_where. simpl. lia.
  - intros a b [_ ->]%breakdowns_summary. simpl.
    rewrite (count_player_action pk a (turnovers st)). simpl. lia.
Qed.

(** C5. Each of the four action counts of a returned summary is the number
    of the player's shots of that action type, plus the number of the
    player's passes of it, plus the number of the player's turnover rows
    of it. *)
Theorem action_count_is_event_volume st player_id s :
  summary_of st player_id s →
  let pk := PlayerSummary.playerID s in
  ∀ a n, (a, n) ∈ action_counts s →
    n = rows_where (λ e, Shot.player_id e = pk ∧ Shot.action_type e = a) (shots st)
        + rows_where (λ e, Pass.player_id e = pk ∧ Pass.action_type e = a) (passes st)
        + rows_where (λ e, Turnover.player_id e = pk ∧ Turnover.action_type e = a)
            (turnovers st).
Proof.
  intros (pk & player & _ & _ & ->)%summary_of_inv. simpl.
  intros a n. unfold action_counts. rewrite !elem_of_cons, elem_of_nil.
  intros [Heq|[Heq|[Heq|[Heq|[]]]]]; inversion Heq; subst; simpl;
    rewrite (count_player_action pk _ (shots st)),
            (count_player_action pk _ (passes st)),
            (count_player_action pk _ (turnovers st)); reflexivity.
Qed.

(** C10. In each of the four category breakdowns of a returned summary the
    detail lists have the lengths the scalars announce: [shots] has
    [totalShotAttempts] entries, [passes] has [totalPasses] entries, and
    [turnovers] has [totalTurnovers - totalPassingTurnovers] entries. *)
Theorem detail_lists_match_scalars st player_id s :
  summary_of st player_id s →
  ∀ a b, (a, b) ∈ breakdowns s →
    Z.of_nat (length (ActionStats.shots b)) = ActionStats.totalShotAttempts b
    ∧ Z.of_nat (length (ActionStats.passes b)) = ActionStats.totalPasses b
    ∧ Z.of_nat (length (ActionStats.turnovers b))
      = ActionStats.totalTurnovers b - ActionStats.totalPassingTurnovers b.
Proof.
  intros (pk & player & _ & _ & ->)%summary_of_inv a b [_ ->]%breakdowns_summary.
  simpl. rewrite !length_fmap. unfold Orm.count. repeat split; lia.
Qed.

(** ** Totals against the category breakdowns *)

Section Categories.
Context `{Event A}.

Lemma sum_by_recognised_action (w : A → Z) (qs : list A) :
  Forall (λ e, recognised (action_type_of e)) qs →
  Py.sum (w <$> qs)
  = Py.sum (w <$> Orm.filter_action "pickAndRoll" qs)
    + Py.sum (w <$> Orm.filter_action "isolation" qs)
    + Py.sum (w <$> Orm.filter_action "postUp" qs)
    + Py.sum (w <$> Orm.filter_action "offBallScreen" qs).
Proof.
  intros Hqs. rewrite (sum_by_action w qs) at 1.
  rewrite (filter_unrecognised_nil qs Hqs), fmap_nil, sum_nil. lia.
Qed.

Lemma count_by_action (qs : list A) :
  Forall (λ e, recognised (action_type_of e)) qs →
  Orm.count qs
  = Orm.count (Orm.filter_action "pickAndRoll" qs)
    + Orm.count (Orm.filter_action "isolation" qs)
    + Orm.count (Orm.filter_action "postUp" qs)
    + Orm.count (Orm.filter_action "offBallScreen" qs).
Proof.
  intros Hqs. rewrite !count_sum_ones. by apply sum_by_recognised_action.
Qed.

Lemma count_filter_by_action (P : A → Prop) `{∀ x, Decision (P x)} (qs : list A) :
  Forall (λ e, recognised (action_type_of e)) qs →
  Orm.count (filter P qs)
  = Orm.count (filter P (Orm.filter_action "pickAndRoll" qs))
    + Orm.count (filter P (Orm.filter_action "isolation" qs))
    + Orm.count (filter P (Orm.filter_action "postUp" qs))
    + Orm.count (filter P (Orm.filter_action "offBallScreen" qs)).
Proof.
  intros Hqs. rewrite !count_filter_sum. by apply sum_by_recognised_action.
Qed.

Lemma filter_player_recognised (pk : Z) (table : list A) :
  (∀ e, e ∈ table → player_of e = pk → recognised (action_type_of e)) →
  Forall (λ e, recognised (action_type_of e)) (Orm.filter_player pk table).
Proof.
  intros Hr. apply Forall_forall. intros e [He Hin]%list_elem_of_filter. auto.
Qed.

End Categories.

(** C2, as the code has it. When every shot and every pass of the player
    carries one of the four action types, each of [totalShotAttempts],
    [totalPoints], [totalPasses], [totalPotentialAssists] and
    [totalPassingTurnovers] of a returned summary is the sum of that metric
    over the four category breakdowns. *)
Theorem totals_are_category_sums st player_id s :
  summary_of st player_id s →
  (∀ e, e ∈ shots st → Shot.player_id e = PlayerSummary.playerID s →
        recognised (Shot.action_type e)) →
  (∀ e, e ∈ passes st → Pass.player_id e = PlayerSummary.playerID s →
        recognised (Pass.action_type e)) →
  PlayerSummary.totalShotAttempts s = over_categories ActionStats.totalShotAttempts s
  ∧ PlayerSummary.totalPoints s = over_categories ActionStats.totalPoints s
  ∧ PlayerSummary.totalPasses s = over_categories ActionStats.totalPasses s
  ∧ PlayerSummary.totalPotentialAssists s
    = over_categories ActionStats.totalPotentialAssists s
  ∧ PlayerSummary.totalPassingTurnovers s
    = over_categories ActionStats.totalPassingTurnovers s.
Proof.
  intros (pk & player & _ & _ & ->)%summary_of_inv. simpl.
  intros Hshots Hpasses.
  pose proof (filter_player_recognised pk (shots st) Hshots) as Hs.
  pose proof (filter_player_recognised pk (passes st) Hpasses) as Hp.
  unfold over_categories. simpl. repeat split.
  - by apply count_by_action.
  - by apply sum_by_recognised_action.
  - by apply count_by_action.
  - by apply count_filter_by_action.
  - by apply count_filter_by_action.
Qed.

Lemma totals_are_category_sums_witness :
  let s := Players.player_summary Fixture.league 2 (Fixture.player "Ben") in
  summary_of Fixture.league "2" s
  ∧ PlayerSummary.totalPasses s = over_categories ActionStats.totalPasses s.
Proof.
  intros s. split; [reflexivity|].
  apply (totals_are_category_sums Fixture.league "2" s); [reflexivity| |].
  - intros e He _. revert e He. apply Forall_forall. vm_compute.
    repeat constructor; auto 6.
  - intros e He _. revert e He. apply Forall_forall. vm_compute.
    repeat constructor; auto 6.
Defined.

(** C2, as stated, fails: a shot whose action type is none of the four is
    counted in [totalShotAttempts] and in no category breakdown. *)
Lemma totals_exceed_category_sums :
  ¬ (∀ st player_id s,
       summary_of st player_id s →
       PlayerSummary.totalShotAttempts s = over_categories ActionStats.totalShotAttempts s
       ∧ PlayerSummary.totalPoints s = over_categories ActionStats.totalPoints s
       ∧ PlayerSummary.totalPasses s = over_categories ActionStats.totalPasses s
       ∧ PlayerSummary.totalPotentialAssists s
         = over_categories ActionStats.totalPotentialAssists s
       ∧ PlayerSummary.totalPassingTurnovers s
         = over_categories ActionStats.totalPassingTurnovers s).
Proof.
  intros Hall.
  destruct (Hall Fixture.league_with_transition "1" _ eq_refl) as [Hattempts _].
  vm_compute in Hattempts. discriminate Hattempts.
Qed.

Lemma total_turnovers_split_witness :
  let s := Players.player_summary Fixture.league 2 (Fixture.player "Ben") in
  summary_of Fixture.league "2" s
  ∧ PlayerSummary.totalTurnovers s
    = PlayerSummary.totalPassingTurnovers s
      + rows_where (λ t, Turnover.player_id t = 2) (turnovers Fixture.league).
Proof.
  intros s. split; [reflexivity|].
  apply (total_turnovers_split Fixture.league "2" s). reflexivity.
Defined.

Lemma action_count_is_event_volume_witness :
  let s := Players.player_summary Fixture.league 2 (Fixture.player "Ben") in
  summary_of Fixture.league "2" s
  ∧ PlayerSummary.postUpCount s
    = rows_where (λ e, Shot.player_id e = 2 ∧ Shot.action_type e = "postUp")
        (shots Fixture.league)
      + rows_where (λ e, Pass.player_id e = 2 ∧ Pass.action_type e = "postUp")
          (passes Fixture.league)
      + rows_where (λ e, Turnover.player_id e = 2 ∧ Turnover.action_type e = "postUp")
          (turnovers Fixture.league).
Proof.
  intros s. split; [reflexivity|].
  apply (action_count_is_event_volume Fixture.league "2" s); [reflexivity|].
  unfold action_counts. rewrite !elem_of_cons. auto.
Defined.

Lemma detail_lists_match_scalars_witness :
  let s := Players.player_summary Fixture.league 2 (Fixture.player "Ben") in
  summary_of Fixture.league "2" s
  ∧ Z.of_nat (length (ActionStats.turnovers (PlayerSummary.offBallScreen s)))
    = ActionStats.totalTurnovers (PlayerSummary.offBallScreen s)
      - ActionStats.totalPassingTurnovers (PlayerSummary.offBallScreen s).
Proof.
  intros s. split; [reflexivity|].
  apply (detail_lists_match_scalars Fixture.league "2" s eq_refl "offBallScreen").
  unfold breakdowns. rewrite !elem_of_cons. auto 6.
Defined.

(** ** Events of no category *)

Ltac solve_recognised :=
  unfold recognised, action_types; rewrite !elem_of_cons; auto 6.

Section Unrecognised.

Lemma action_stats_skip_shot S1 S2 e P T a :
  recognised a → ¬ recognised (Shot.action_type e) →
  Players.get_action_stats (S1 ++ e :: S2) P T a
  = Players.get_action_stats (S1 ++ S2) P T a.
Proof.
  intros Ha He. unfold Players.get_action_stats.
  by rewrite (@filter_action_unrecognised _ shot_event a e S1 S2 Ha He).
Qed.

Lemma action_stats_skip_pass S P1 P2 e T a :
  recognised a → ¬ recognised (Pass.action_type e) →
  Players.get_action_stats S (P1 ++ e :: P2) T a
  = Players.get_action_stats S (P1 ++ P2) T a.
Proof.
  intros Ha He. unfold Players.get_action_stats.
  by rewrite (@filter_action_unrecognised _ pass_event a e P1 P2 Ha He).
Qed.

Lemma action_stats_skip_turnover S P T1 T2 e a :
  recognised a → ¬ recognised (Turnover.action_type e) →
  Players.get_action_stats S P (T1 ++ e :: T2) a
  = Players.get_action_stats S P (T1 ++ T2) a.
Proof.
  intros Ha He. unfold Players.get_action_stats.
  by rewrite (@filter_action_unrecognised _ turnover_event a e T1 T2 Ha He).
Qed.

Lemma count_insert {A} (l1 l2 : list A) (e : A) :
  Orm.count (l1 ++ e :: l2) = Orm.count (l1 ++ l2) + 1.
Proof. unfold Orm.count. rewrite !length_app. simpl. lia. Qed.

Lemma count_filter_insert {A} (P : A → Prop) `{∀ x, Decision (P x)} l1 l2 e :
  Orm.count (filter P (l1 ++ e :: l2))
  = Orm.count (filter P (l1 ++ l2)) + (if decide (P e) then 1 else 0).
Proof.
  rewrite !filter_app, filter_cons.
  destruct (decide (P e)); [apply count_insert | lia].
Qed.

Lemma sum_insert (f : Shot.t → Z) l1 l2 e :
  Py.sum (f <$> l1 ++ e :: l2) = Py.sum (f <$> l1 ++ l2) + f e.
Proof. rewrite !fmap_app, fmap_cons, !sum_app, sum_cons. lia. Qed.

Lemma b2z_decide (b : bool) : (if decide (b = true) then 1 else 0) = Z.b2z b.
Proof. by destruct b. Qed.

Lemma summary_with_shot st pk player e l1 l2 :
  shots st = l1 ++ l2 → Shot.player_id e = pk → ¬ recognised (Shot.action_type e) →
  Players.player_summary
    {| players := players st; shots := l1 ++ e :: l2;
       passes := passes st; turnovers := turnovers st |} pk player
  = add_totals 1 (Shot.points e) 0 0 0 0 (Players.player_summary st pk player).
Proof.
  intros Hs Hpk He. unfold Players.player_summary, add_totals. simpl.
  rewrite Hs, (@filter_player_insert _ shot_event pk e l1 l2 Hpk), filter_player_app.
  rewrite !(action_stats_skip_shot _ _ e) by (done || solve_recognised).
  rewrite !(filter_action_unrecognised _ e) by (done || solve_recognised).
  rewrite count_insert, sum_insert. f_equal; lia.
Qed.

Lemma summary_with_pass st pk player e l1 l2 :
  passes st = l1 ++ l2 → Pass.player_id e = pk → ¬ recognised (Pass.action_type e) →
  Players.player_summary
    {| players := players st; shots := shots st;
       passes := l1 ++ e :: l2; turnovers := turnovers st |} pk player
  = add_totals 0 0 1 (Z.b2z (Pass.potential_assist e))
      (Z.b2z (Pass.turnover e)) (Z.b2z (Pass.turnover e))
      (Players.player_summary st pk player).
Proof.
  intros Hs Hpk He. unfold Players.player_summary, add_totals. simpl.
  rewrite Hs, (@filter_player_insert _ pass_event pk e l1 l2 Hpk), filter_player_app.
  rewrite !(action_stats_skip_pass _ _ _ e) by (done || solve_recognised).
  rewrite !(filter_action_unrecognised _ e) by (done || solve_recognised).
  rewrite count_insert, !count_filter_insert, !b2z_decide. f_equal; lia.
Qed.

Lemma summary_with_turnover st pk player e l1 l2 :
  turnovers st = l1 ++ l2 → Turnover.player_id e = pk →
  ¬ recognised (Turnover.action_type e) →
  Players.player_summary
    {| players := players st; shots := shots st;
       passes := passes st; turnovers := l1 ++ e :: l2 |} pk player
  = add_totals 0 0 0 0 1 0 (Players.player_summary st pk player).
Proof.
  intros Hs Hpk He. unfold Players.player_summary, add_totals. simpl.
  rewrite Hs, (@filter_player_insert _ turnover_event pk e l1 l2 Hpk), filter_player_app.
  rewrite !(action_stats_skip_turnover _ _ _ _ e) by (done || solve_recognised).
  rewrite !(filter_action_unrecognised _ e) by (done || solve_recognised).
  rewrite count_insert. f_equal; lia.
Qed.

Lemma summary_with_event st pk player n ev :
  event_player ev = pk → ¬ recognised (event_action_type ev) →
  Players.player_summary (store_insert n ev st) pk player
  = count_in_totals ev (Players.player_summary st pk player).
Proof.
  intros Hpk He. destruct ev as [e|e|e]; simpl in *.
  - apply summary_with_shot; [by rewrite take_drop|done..].
  - apply summary_with_pass; [by rewrite take_drop|done..].
  - apply summary_with_turnover; [by rewrite take_drop|done..].
Qed.

End Unrecognised.

(** C4. An event of the player whose action type is none of the four is
    not rejected: with it in the store, a summary is still returned; it is
    the summary without the event with the event counted in the overall
    totals, and the four category breakdowns and the four action counts
    are those of the summary without the event. *)
Theorem unrecognised_event_only_in_totals st player_id s n ev :
  summary_of st player_id s →
  event_player ev = PlayerSummary.playerID s →
  ¬ recognised (event_action_type ev) →
  let s' := count_in_totals ev s in
  summary_of (store_insert n ev st) player_id s'
  ∧ breakdowns s' = breakdowns s
  ∧ action_counts s' = action_counts s.
Proof.
  intros (pk & player & Hint & Hplayer & ->)%summary_of_inv Hpk He. simpl in Hpk.
  split; [|by destruct ev].
  unfold summary_of, Players.get_player_summary_stats. rewrite Hint.
  replace (players (store_insert n ev st)) with (players st) by (by destruct ev).
  rewrite Hplayer. by rewrite summary_with_event.
Qed.

Lemma unrecognised_event_only_in_totals_witness :
  let s := Players.player_summary Fixture.league 1 (Fixture.player "Ada") in
  let ev := AShot (Fixture.shot 6 1 3 "transition") in
  summary_of Fixture.league "1" s
  ∧ event_player ev = PlayerSummary.playerID s
  ∧ ¬ recognised (event_action_type ev)
  ∧ summary_of (store_insert 2 ev Fixture.league) "1" (count_in_totals ev s)
  ∧ PlayerSummary.totalShotAttempts (count_in_totals ev s) = 5
  ∧ PlayerSummary.totalPoints (count_in_totals ev s) = 10.
Proof.
  intros s ev.
  assert (Hev : ¬ recognised (event_action_type ev)).
  { unfold recognised, action_types. rewrite !elem_of_cons, elem_of_nil.
    intros [H|[H|[H|[H|[]]]]]; discriminate H. }
  split; [reflexivity|]. split; [reflexivity|]. split; [exact Hev|].
  split; [|split; reflexivity].
  apply (unrecognised_event_only_in_totals Fixture.league "1" s 2 ev eq_refl eq_refl Hev).
Defined.

(** ** Unknown players *)

(** [int] on some texts. Blanks around the literal, a sign, single
    underscores between digits, and the digits and blanks of other scripts
    (here U+0663 ARABIC-INDIC DIGIT THREE and U+0085 NEXT LINE, by their
    bytes) are accepted; the separator U+001C, a doubled underscore, a
    letter and the empty text are not. *)
Example int_literals :
  Py.int " -1_000 " = Some (-1000)
  ∧ Py.int (string_of_list_ascii (ascii_of_nat <$> [217; 163]%nat)) = Some 3
  ∧ Py.int (string_of_list_ascii (ascii_of_nat <$> [49; 194; 133]%nat)) = Some 1
  ∧ Py.int (string_of_list_ascii (ascii_of_nat <$> [55; 28]%nat)) = None
  ∧ Py.int "1__0" = None
  ∧ Py.int "abc" = None
  ∧ Py.int "" = None.
Proof. repeat split; reflexivity. Qed.

(** C6, as the code has it. For a [player_id] that [int] accepts: when the
    integer is the key of no player, the call returns (and does not raise)
    the error dictionary whose message carries the requested id, not a
    summary; when it is the key of a player, the call returns the summary
    of that player and not an error. *)
Theorem player_not_found_is_returned st player_id pk :
  Py.int player_id = Some pk →
  match players st !! pk with
  | None =>
      Players.get_player_summary_stats st player_id
      = Py.Returns (ErrorDict ("Player with ID " +:+ player_id +:+ " not found"))
      ∧ ∀ s, ¬ summary_of st player_id s
  | Some player =>
      ∃ s, summary_of st player_id s
           ∧ PlayerSummary.playerID s = pk
           ∧ PlayerSummary.name s = Player.name player
  end.
Proof.
  intros Hint. unfold summary_of, Players.get_player_summary_stats. rewrite Hint.
  destruct (players st !! pk) as [player|].
  - eexists. split; [reflexivity|]. split; reflexivity.
  - split; [reflexivity|]. intros s Hs. discriminate Hs.
Qed.

Lemma player_not_found_is_returned_witness :
  Py.int "7" = Some 7
  ∧ Players.get_player_summary_stats Fixture.league "7"
    = Py.Returns (ErrorDict "Player with ID 7 not found").
Proof.
  split; [reflexivity|].
  apply (player_not_found_is_returned Fixture.league "7" 7 eq_refl).
Defined.

(** C6, as stated, fails: an id that is not the text of an integer does
    not resolve to a player, and the call raises [ValueError] instead of
    returning the error dictionary. *)
Lemma unparsable_id_raises :
  ¬ resolves Fixture.league "abc"
  ∧ Players.get_player_summary_stats Fixture.league "abc" = Py.Raises Py.ValueError
  ∧ ¬ (∀ st player_id,
         ¬ resolves st player_id →
         ∃ error, Players.get_player_summary_stats st player_id
                  = Py.Returns (ErrorDict error)).
Proof.
  assert (Hno : ¬ resolves Fixture.league "abc").
  { intros (pk & Hint & _). discriminate Hint. }
  split; [exact Hno|]. split; [reflexivity|].
  intros Hall. destruct (Hall Fixture.league "abc" Hno) as [error Herr].
  discriminate Herr.
Qed.

(** ** The worked example of the summary *)

Section ShotKinds.

Lemma filter_action_kinds (a : string) (S : list Shot.t) :
  shot_kind <$> Orm.filter_action a S = filter (λ k, k.1 = a) (shot_kind <$> S).
Proof.
  unfold Orm.filter_action. induction S as [|e S IH]; [done|].
  rewrite fmap_cons, !filter_cons.
  destruct (decide (action_type_of e = a)) as [Heq|Hne].
  - rewrite decide_True by exact Heq. by rewrite fmap_cons, IH.
  - rewrite decide_False by exact Hne. exact IH.
Qed.

Lemma count_kinds (S : list Shot.t) :
  Orm.count S = Z.of_nat (length (shot_kind <$> S)).
Proof. unfold Orm.count. by rewrite length_fmap. Qed.

Lemma points_kinds (S : list Shot.t) :
  Py.sum (Shot.points <$> S) = Py.sum (snd <$> (shot_kind <$> S)).
Proof. by rewrite <- list_fmap_compose. Qed.

(** What the summary reads off the shots depends on their kinds only,
    whatever their order. *)
Lemma shots_by_kinds (a : string) (S : list Shot.t) (kinds : list (string * Z)) :
  shot_kind <$> S ≡ₚ kinds →
  Orm.count S = Z.of_nat (length kinds)
  ∧ Py.sum (Shot.points <$> S) = Py.sum (snd <$> kinds)
  ∧ Orm.count (Orm.filter_action a S)
    = Z.of_nat (length (filter (λ k, k.1 = a) kinds))
  ∧ Py.sum (Shot.points <$> Orm.filter_action a S)
    = Py.sum (snd <$> filter (λ k, k.1 = a) kinds).
Proof.
  intros Hk.
  rewrite (count_kinds S), (points_kinds S), (count_kinds (Orm.filter_action a S)),
    (points_kinds (Orm.filter_action a S)), filter_action_kinds.
  by rewrite Hk.
Qed.

End ShotKinds.

(** C7. A player whose shots are three pick-and-roll shots worth 2, 2 and 3
    points and one isolation shot worth 0 points, and who has neither
    passes nor turnovers, gets [totalShotAttempts = 4], [totalPoints = 7],
    7 points in the pick-and-roll breakdown, 0 in the isolation breakdown,
    and the action counts 3, 1, 0 and 0. *)
Theorem four_shot_example st player_id s :
  summary_of st player_id s →
  let pk := PlayerSummary.playerID s in
  shot_kind <$> filter (λ e, Shot.player_id e = pk) (shots st)
    ≡ₚ [("pickAndRoll", 2); ("pickAndRoll", 2); ("pickAndRoll", 3); ("isolation", 0)] →
  filter (λ e, Pass.player_id e = pk) (passes st) = [] →
  filter (λ e, Turnover.player_id e = pk) (turnovers st) = [] →
  PlayerSummary.totalShotAttempts s = 4
  ∧ PlayerSummary.totalPoints s = 7
  ∧ ActionStats.totalPoints (PlayerSummary.pickAndRoll s) = 7
  ∧ ActionStats.totalPoints (PlayerSummary.isolation s) = 0
  ∧ PlayerSummary.pickAndRollCount s = 3
  ∧ PlayerSummary.isolationCount s = 1
  ∧ PlayerSummary.postUpCount s = 0
  ∧ PlayerSummary.offBallScreenCount s = 0.
Proof.
  intros (pk & player & _ & _ & ->)%summary_of_inv. simpl.
  intros Hshots Hpasses Hturnovers.
  change (filter (λ e, Pass.player_id e = pk) (passes st))
    with (Orm.filter_player pk (passes st)) in Hpasses.
  change (filter (λ e, Turnover.player_id e = pk) (turnovers st))
    with (Orm.filter_player pk (turnovers st)) in Hturnovers.
  rewrite Hpasses, Hturnovers.
  pose proof (λ a, shots_by_kinds a (Orm.filter_player pk (shots st)) _ Hshots) as Hk.
  destruct (Hk "pickAndRoll") as (-> & -> & -> & ->).
  destruct (Hk "isolation") as (_ & _ & -> & ->).
  destruct (Hk "postUp") as (_ & _ & -> & _).
  destruct (Hk "offBallScreen") as (_ & _ & -> & _).
  repeat split; reflexivity.
Qed.

Lemma four_shot_example_witness :
  let s := Players.player_summary Fixture.league 1 (Fixture.player "Ada") in
  summary_of Fixture.league "1" s
  ∧ PlayerSummary.totalShotAttempts s = 4
  ∧ PlayerSummary.totalPoints s = 7
  ∧ ActionStats.totalPoints (PlayerSummary.pickAndRoll s) = 7
  ∧ ActionStats.totalPoints (PlayerSummary.isolation s) = 0
  ∧ PlayerSummary.pickAndRollCount s = 3
  ∧ PlayerSummary.isolationCount s = 1
  ∧ PlayerSummary.postUpCount s = 0
  ∧ PlayerSummary.offBallScreenCount s = 0.
Proof.
  intros s. split; [reflexivity|].
  apply (four_shot_example Fixture.league "1" s eq_refl); [|reflexivity..].
  vm_compute. apply perm_skip, perm_skip, perm_swap.
Defined.

(** ** The order in which the store returns its rows *)

Section Order.

#[local] Instance count_perm {A} : Proper ((≡ₚ) ==> (=)) (@Orm.count A).
Proof. intros l l' Hl. unfold Orm.count. by rewrite Hl. Qed.

#[local] Instance filter_player_perm `{Event A} pk :
  Proper ((≡ₚ) ==> (≡ₚ)) (Orm.filter_player (A := A) pk).
Proof. intros l l' Hl. unfold Orm.filter_player. by rewrite Hl. Qed.

#[local] Instance filter_action_perm `{Event A} a :
  Proper ((≡ₚ) ==> (≡ₚ)) (Orm.filter_action (A := A) a).
Proof. intros l l' Hl. unfold Orm.filter_action. by rewrite Hl. Qed.

Lemma action_stats_perm S S' P P' T T' a :
  S ≡ₚ S' → P ≡ₚ P' → T ≡ₚ T' →
  stats_agree (Players.get_action_stats S P T a)
              (Players.get_action_stats S' P' T' a).
Proof.
  intros HS HP HT. unfold stats_agree, Players.get_action_stats. simpl.
  repeat split; by rewrite ?HS, ?HP, ?HT.
Qed.

Lemma player_summary_perm st st' pk player :
  same_snapshot st st' →
  summary_agree (Players.player_summary st pk player)
                (Players.player_summary st' pk player).
Proof.
  intros (_ & HS & HP & HT).
  apply (filter_player_perm pk) in HS, HP, HT.
  unfold summary_agree. split; [done|]. split; [done|]. split.
  - intros m. unfold dict_get, Players.player_summary. simpl.
    repeat (destruct (String.eqb m _); [by rewrite ?HS, ?HP, ?HT|]).
    done.
  - unfold Players.player_summary. simpl.
    repeat split; by apply action_stats_perm.
Qed.

End Order.

(** C8. [get_player_summary_stats] reads the store and nothing else. On two
    stores that hold the same players and the same events the two results
    agree in every scalar, whatever the order in which each store returns
    its rows; their detail lists hold the same entries, possibly in another
    order. When the rows also come in the same order, as in two calls on an
    unchanged store, the two results are identical. *)
Theorem summary_is_deterministic st st' player_id :
  same_snapshot st st' →
  result_agree (Players.get_player_summary_stats st player_id)
               (Players.get_player_summary_stats st' player_id)
  ∧ (shots st = shots st' → passes st = passes st' → turnovers st = turnovers st' →
     Players.get_player_summary_stats st player_id
     = Players.get_player_summary_stats st' player_id).
Proof.
  intros Hsame. split.
  - unfold result_agree, Players.get_player_summary_stats.
    destruct (Py.int player_id) as [pk|]; [|done].
    destruct Hsame as (Hplayers & Hrest). rewrite <- Hplayers.
    destruct (players st !! pk) as [player|] eqn:Hp; [|done].
    apply player_summary_perm. by split.
  - destruct Hsame as (Hplayers & _).
    destruct st, st'; simpl in *. by intros -> -> ->; subst.
Qed.

Lemma summary_is_deterministic_witness :
  same_snapshot Fixture.league Fixture.league_reordered
  ∧ result_agree (Players.get_player_summary_stats Fixture.league "2")
                 (Players.get_player_summary_stats Fixture.league_reordered "2").
Proof.
  assert (Hsame : same_snapshot Fixture.league Fixture.league_reordered).
  { split; [reflexivity|].
    repeat split; symmetry; apply reverse_Permutation. }
  split; [exact Hsame|].
  apply (summary_is_deterministic Fixture.league Fixture.league_reordered "2" Hsame).
Defined.

(** ** The ranks *)

(** C9. [get_ranks] does not use its [player_id] argument: the rank set is
    the same for any two ids, and for any two summaries with the same
    values of the ten tracked metrics. Each rank is [calculate_rank] at the
    value the summary holds under the metric's key, and at 0 when the
    dictionary has no such key. *)
Theorem ranks_ignore_player_id st player_id player_id' d :
  Players.get_ranks st player_id d = Players.get_ranks st player_id' d
  ∧ (∀ m r, (m, r) ∈ ranks (Players.get_ranks st player_id d) →
       m ∈ tracked_metrics ∧ r = Players.calculate_rank st m (dict_get d m 0))
  ∧ (∀ error m, dict_get (ErrorDict error) m 0 = 0)
  ∧ (∀ d', Forall (λ m, dict_get d m 0 = dict_get d' m 0) tracked_metrics →
       Players.get_ranks st player_id d = Players.get_ranks st player_id' d').
Proof.
  split; [reflexivity|]. split; [|split; [reflexivity|]].
  - intros m r. unfold ranks, tracked_metrics. simpl.
    rewrite !elem_of_cons, !elem_of_nil.
    intros Hin.
    repeat (destruct Hin as [Heq|Hin]; [inversion Heq; subst; split; [auto 12|reflexivity]|]).
    destruct Hin.
  - intros d' Hd. unfold tracked_metrics in Hd.
    repeat (apply Forall_cons in Hd as [? Hd]).
    unfold Players.get_ranks. congruence.
Qed.

Section Ranks.

Lemma rows_where_ext {A} (P Q : A → Prop)
    `{∀ x, Decision (P x)} `{∀ x, Decision (Q x)} (l : list A) :
  (∀ x, P x ↔ Q x) → rows_where P l = rows_where Q l.
Proof. intros HPQ. unfold rows_where. by rewrite (list_filter_iff P Q). Qed.

Lemma foldl_count_better {A} (P : A → Prop) `{∀ x, Decision (P x)} (l : list A) acc :
  foldl (λ better_count p, if decide (P p) then better_count + 1 else better_count)
    acc l
  = acc + rows_where P l.
Proof.
  unfold rows_where. revert acc. induction l as [|x l IH]; intros acc; simpl.
  - lia.
  - rewrite IH, filter_cons. destruct (decide (P x)); simpl; lia.
Qed.

(** The counting loop counts the players whose value is greater. *)
Lemma count_better_spec st value v :
  Players.count_better st value v
  = rows_where (λ p : Z * Player.t, value p.1 > v) (Orm.all_players st).
Proof.
  unfold Players.count_better.
  by rewrite (foldl_count_better (λ p : Z * Player.t, value p.1 > v)).
Qed.

(** So does the filter on an annotation. *)
Lemma annotate_gt_spec st x v :
  Orm.count (Orm.filter_gt v (Orm.annotate st x))
  = rows_where (λ p : Z * Player.t, x p.1 > v) (Orm.all_players st).
Proof.
  unfold Orm.count, Orm.filter_gt, Orm.annotate, rows_where. f_equal.
  induction (Orm.all_players st) as [|p l IH]; [done|].
  rewrite fmap_cons, !filter_cons. simpl.
  destruct (decide (v < x p.1)), (decide (x p.1 > v)); simpl; lia.
Qed.

Lemma non_null_Some {A} (l : list A) : Orm.non_null (Some <$> l) = l.
Proof.
  unfold Orm.non_null. induction l as [|a l IH]; [done|].
  rewrite fmap_cons. simpl. f_equal. exact IH.
Qed.

Lemma non_null_join {A} (related : list A) :
  Orm.non_null (Orm.left_outer_join related) = related.
Proof.
  destruct related as [|a related]; [done|].
  apply (non_null_Some (a :: related)).
Qed.

(** Over a single join, [COUNT] is the number of related rows. *)
Lemma sql_count_join {A} (related : list A) :
  Orm.sql_count (Orm.left_outer_join related) = Orm.count related.
Proof. unfold Orm.sql_count. by rewrite non_null_join. Qed.

Lemma sql_count_filter_join {A} (cond : A → bool) (related : list A) :
  Orm.sql_count_filter cond (Orm.left_outer_join related)
  = Orm.count (filter (λ a, cond a = true) related).
Proof. unfold Orm.sql_count_filter. by rewrite non_null_join. Qed.

Lemma or_0_aggregate_sum (col : list Z) :
  Py.or_0 (Orm.aggregate_sum col) = Py.sum col.
Proof.
  rewrite sum_foldr. destruct col as [|x col]; [done|].
  unfold Orm.aggregate_sum, Py.or_0. by destruct (decide _) as [->|].
Qed.

End Ranks.

Section RankInvariant.
Variable st : Store.
Variable v : Z.

Let greater (value : Z → Z) : Z :=
  rows_where (λ p : Z * Player.t, value p.1 > v) (Orm.all_players st).

Lemma expected_rank_greater (m : string) (value : Z → Z) :
  (∀ p, metric_of st m p = value p.1) →
  expected_rank st m v = greater value + 1.
Proof.
  intros Hm. unfold expected_rank, greater. rewrite Z.add_comm. f_equal.
  apply rows_where_ext. intros p. by rewrite Hm.
Qed.

Lemma rank_totalShotAttempts :
  Players.calculate_rank st "totalShotAttempts" v
  = expected_rank st "totalShotAttempts" v.
Proof.
  rewrite (expected_rank_greater _
             (λ pk, Orm.count (Orm.filter_player pk (shots st)))) by done.
  change (Players.calculate_rank st "totalShotAttempts" v)
    with (Orm.count (Orm.filter_gt v (Orm.annotate st (λ pk,
            Orm.sql_count (Orm.left_outer_join (Orm.filter_player pk (shots st))))))
          + 1).
  rewrite annotate_gt_spec. f_equal. unfold greater. apply rows_where_ext. intros p.
  by rewrite sql_count_join.
Qed.

Lemma rank_totalPoints :
  Players.calculate_rank st "totalPoints" v = expected_rank st "totalPoints" v.
Proof.
  rewrite (expected_rank_greater _
             (λ pk, Py.sum (Shot.points <$> Orm.filter_player pk (shots st)))) by done.
  change (Players.calculate_rank st "totalPoints" v)
    with (Players.count_better st (λ pk,
            Py.or_0 (Orm.aggregate_sum
                       (Shot.points <$> Orm.filter_player pk (shots st)))) v + 1).
  rewrite count_better_spec. f_equal. unfold greater. apply rows_where_ext. intros p.
  by rewrite or_0_aggregate_sum.
Qed.

Lemma rank_totalPasses :
  Players.calculate_rank st "totalPasses" v = expected_rank st "totalPasses" v.
Proof.
  rewrite (expected_rank_greater _
             (λ pk, Orm.count (Orm.filter_player pk (passes st)))) by done.
  change (Players.calculate_rank st "totalPasses" v)
    with (Orm.count (Orm.filter_gt v (Orm.annotate st (λ pk,
            Orm.sql_count (Orm.left_outer_join (Orm.filter_player pk (passes st))))))
          + 1).
  rewrite annotate_gt_spec. f_equal. unfold greater. apply rows_where_ext. intros p.
  by rewrite sql_count_join.
Qed.

Lemma rank_totalPotentialAssists :
  Players.calculate_rank st "totalPotentialAssists" v
  = expected_rank st "totalPotentialAssists" v.
Proof.
  rewrite (expected_rank_greater _
             (λ pk, Orm.count (filter (λ p, Pass.potential_assist p = true)
                                 (Orm.filter_player pk (passes st))))) by done.
  change (Players.calculate_rank st "totalPotentialAssists" v)
    with (Orm.count (Orm.filter_gt v (Orm.annotate st (λ pk,
            Orm.sql_count_filter Pass.potential_assist
              (Orm.left_outer_join (Orm.filter_player pk (passes st))))))
          + 1).
  rewrite annotate_gt_spec. f_equal. unfold greater. apply rows_where_ext. intros p.
  by rewrite sql_count_filter_join.
Qed.

Lemma rank_totalPassingTurnovers :
  Players.calculate_rank st "totalPassingTurnovers" v
  = expected_rank st "totalPassingTurnovers" v.
Proof.
  rewrite (expected_rank_greater _
             (λ pk, Orm.count (filter (λ p, Pass.turnover p = true)
                                 (Orm.filter_player pk (passes st))))) by done.
  change (Players.calculate_rank st "totalPassingTurnovers" v)
    with (Orm.count (Orm.filter_gt v (Orm.annotate st (λ pk,
            Orm.sql_count_filter Pass.turnover
              (Orm.left_outer_join (Orm.filter_player pk (passes st))))))
          + 1).
  rewrite annotate_gt_spec. f_equal. unfold greater. apply rows_where_ext. intros p.
  by rewrite sql_count_filter_join.
Qed.

Lemma rank_action_count (m a : string) :
  (m, a) ∈ [("pickAndRollCount", "pickAndRoll"); ("isolationCount", "isolation");
            ("postUpCount", "postUp"); ("offBallScreenCount", "offBallScreen")] →
  Players.calculate_rank st m v = expected_rank st m v.
Proof.
  rewrite !elem_of_cons, elem_of_nil.
  intros [Heq|[Heq|[Heq|[Heq|[]]]]]; inversion Heq; subst;
    rewrite (expected_rank_greater _ (Players.action_count st _)) by done;
    match goal with
    | |- Players.calculate_rank st _ v = greater (Players.action_count st ?a) + 1 =>
        change (Players.count_better st (Players.action_count st a) v + 1
                = greater (Players.action_count st a) + 1)
    end;
    by rewrite count_better_spec.
Qed.

(** X1. For every tracked metric but [totalTurnovers], the rank computed for a
    value is one plus the number of players of the league whose summary
    holds a strictly greater value. *)
Lemma rank_counts_strictly_greater (m : string) :
  m ∈ tracked_metrics → m ≠ "totalTurnovers" →
  Players.calculate_rank st m v = expected_rank st m v.
Proof.
  unfold tracked_metrics. rewrite !elem_of_cons, elem_of_nil.
  intros Hm Hne.
  destruct Hm as [->|[->|[->|[->|[->|[->|[->|[->|[->|[->|[]]]]]]]]]]].
  - apply rank_totalShotAttempts.
  - apply rank_totalPoints.
  - apply rank_totalPasses.
  - apply rank_totalPotentialAssists.
  - done.
  - apply rank_totalPassingTurnovers.
  - apply (rank_action_count _ "pickAndRoll"). rewrite !elem_of_cons. auto.
  - apply (rank_action_count _ "isolation"). rewrite !elem_of_cons. auto.
  - apply (rank_action_count _ "postUp"). rewrite !elem_of_cons. auto.
  - apply (rank_action_count _ "offBallScreen"). rewrite !elem_of_cons. auto 6.
Qed.

End RankInvariant.

(** ** The rank of [totalTurnovers] *)

Section JoinedGroup.
Context {A B : Type}.

Lemma pair_row_fst (t : option A) (LP : list (option B)) :
  fst <$> (p ← LP; [(t, p)]) = replicate (length LP) t.
Proof.
  induction LP as [|p LP IH]; [done|].
  change (p0 ← p :: LP; [(t, p0)]) with ((t, p) :: (p0 ← LP; [(t, p0)])).
  rewrite fmap_cons, IH. done.
Qed.

Lemma non_null_replicate (n : nat) (t : option A) :
  length (Orm.non_null (replicate n t))
  = match t with Some _ => n | None => 0%nat end.
Proof.
  unfold Orm.non_null. induction n as [|n IH]; [by destruct t|].
  destruct t; simpl in *; [f_equal|]; exact IH.
Qed.

Lemma pair_row_snd (t : option A) (LP : list (option B)) :
  snd <$> (p ← LP; [(t, p)]) = LP.
Proof.
  induction LP as [|p LP IH]; [done|].
  change (p0 ← p :: LP; [(t, p0)]) with ((t, p) :: (p0 ← LP; [(t, p0)])).
  by rewrite fmap_cons, IH.
Qed.

(** In the rows of two joins, each value of one column is repeated once
    per row of the other. *)
Lemma joined_group_counts (cond : B → Prop) `{∀ b, Decision (cond b)}
    (LT : list (option A)) (LP : list (option B)) :
  let group := t ← LT; p ← LP; [(t, p)] in
  length (Orm.non_null (fst <$> group))
  = (length (Orm.non_null LT) * length LP)%nat
  ∧ length (filter cond (Orm.non_null (snd <$> group)))
    = (length LT * length (filter cond (Orm.non_null LP)))%nat.
Proof.
  simpl. induction LT as [|t LT [IH1 IH2]]; [done|].
  change (t0 ← t :: LT; p ← LP; [(t0, p)])
    with ((p ← LP; [(t, p)]) ++ (t0 ← LT; p ← LP; [(t0, p)])).
  unfold Orm.non_null in *.
  rewrite !fmap_app, !omap_app, filter_app, !length_app, IH1, IH2.
  rewrite pair_row_snd, pair_row_fst.
  pose proof (non_null_replicate (length LP) t) as Hrow.
  unfold Orm.non_null in Hrow. rewrite Hrow. by destruct t.
Qed.

Lemma left_outer_join_length (related : list A) :
  length (Orm.left_outer_join related) = Nat.max 1 (length related).
Proof.
  destruct related as [|a related]; [done|].
  unfold Orm.left_outer_join. rewrite length_fmap. simpl. lia.
Qed.

End JoinedGroup.

(** The value that [calculate_rank] compares for [totalTurnovers]: with
    [T] turnover rows, [P] passes and [PT] passes flagged as turnovers, the
    joined group of the player counts [T] once per pass and [PT] once per
    turnover row. The summary holds [T + PT]. *)
Lemma turnover_annotation_value st pk :
  let group := Orm.join_turnovers_passes st pk in
  let T := Orm.count (Orm.filter_player pk (turnovers st)) in
  let P := Orm.count (Orm.filter_player pk (passes st)) in
  let PT := Orm.count (filter (λ p, Pass.turnover p = true)
                         (Orm.filter_player pk (passes st))) in
  Orm.sql_count (fst <$> group) + Orm.sql_count_filter Pass.turnover (snd <$> group)
  = T * Z.max 1 P + PT * Z.max 1 T.
Proof.
  simpl. unfold Orm.sql_count, Orm.sql_count_filter, Orm.count, Orm.join_turnovers_passes.
  destruct (joined_group_counts (λ p, Pass.turnover p = true)
              (Orm.left_outer_join (Orm.filter_player pk (turnovers st)))
              (Orm.left_outer_join (Orm.filter_player pk (passes st)))) as [-> ->].
  rewrite !non_null_join, !left_outer_join_length. lia.
Qed.

(** C1 at a league where the code and the statement part. Both players have
    [totalTurnovers = 1], so no player is strictly above player 1 and the
    statement gives rank 1; player 2 also has two passes, the joined group
    of player 2 counts the turnover row twice, and [get_ranks] gives player 1
    the rank 2. *)
Theorem total_turnovers_rank_counts_joined_rows :
  let st := Fixture.league_turnovers in
  ∃ s, summary_of st "1" s
       ∧ PlayerSummary.totalTurnovers s = 1
       ∧ Forall (λ p, metric_of st "totalTurnovers" p = 1) (Orm.all_players st)
       ∧ expected_rank st "totalTurnovers" (PlayerSummary.totalTurnovers s) = 1
       ∧ RankSet.totalTurnoversRank (Players.get_ranks st "1" (StatsDict s)) = 2.
Proof.
  eexists. split; [reflexivity|]. split; [reflexivity|].
  split; [|split; vm_compute; reflexivity].
  vm_compute. repeat constructor.
Qed.

(** The tie of C1 on [totalPoints]: with 50, 50 and 40 points the two
    leaders are both ranked 1 and the third player is ranked 3. *)
Example tied_leaders_share_rank_one :
  let st := Fixture.league_tied in
  let rank_of pk :=
    match Players.get_player_summary_stats st pk with
    | Py.Returns d => Some (dict_get d "totalPoints" 0,
                            RankSet.totalPointsRank (Players.get_ranks st pk d))
    | Py.Raises _ => None
    end in
  rank_of "1" = Some (50, 1) ∧ rank_of "2" = Some (50, 1) ∧ rank_of "3" = Some (40, 3).
Proof. vm_compute. repeat split; reflexivity. Qed.

(** ** What [calculate_rank] compares *)

Section Compared.
Variable st : Store.

Lemma calculate_rank_compared (m : string) (v : Z) :
  Players.calculate_rank st m v
  = match compared_value st m with
    | Some value =>
        rows_where (λ p : Z * Player.t, value p.1 > v) (Orm.all_players st) + 1
    | None => 1
    end.
Proof.
  unfold Players.calculate_rank, compared_value.
  repeat (destruct (String.eqb m _);
    [ rewrite ?annotate_gt_spec, ?count_better_spec; f_equal;
      apply rows_where_ext; intros p;
      rewrite ?sql_count_join, ?sql_count_filter_join, ?or_0_aggregate_sum,
        ?turnover_annotation_value; reflexivity | ]).
  reflexivity.
Qed.

Lemma rows_where_bounds {A} (P : A → Prop) `{∀ x, Decision (P x)} (l : list A) :
  (0 ≤ rows_where P l ≤ Z.of_nat (length l))%Z.
Proof. unfold rows_where. pose proof (length_filter P l). lia. Qed.

Lemma rows_where_mono {A} (P Q : A → Prop)
    `{∀ x, Decision (P x)} `{∀ x, Decision (Q x)} (l : list A) :
  (∀ x, P x → Q x) → (rows_where P l ≤ rows_where Q l)%Z.
Proof.
  intros HPQ. unfold rows_where. induction l as [|x l IH]; [done|].
  rewrite !filter_cons.
  destruct (decide (P x)) as [HP|HP], (decide (Q x)) as [HQ|HQ]; simpl; try lia.
  by destruct HQ; apply HPQ.
Qed.

Lemma rows_where_zero {A} (P : A → Prop) `{∀ x, Decision (P x)} (l : list A) :
  rows_where P l = 0 ↔ Forall (λ x, ¬ P x) l.
Proof.
  unfold rows_where. induction l as [|x l IH].
  - split; [constructor|done].
  - rewrite filter_cons, Forall_cons. destruct (decide (P x)); simpl.
    + split; [lia|tauto].
    + rewrite IH. tauto.
Qed.

Lemma all_players_length : length (Orm.all_players st) = size (players st).
Proof. unfold Orm.all_players. apply length_map_to_list. Qed.

(** For the nine metrics that are ranked on their summary value, the
    compared value is the value of the player's summary. *)
Lemma compared_value_metric (m : string) :
  m ∈ tracked_metrics → m ≠ "totalTurnovers" →
  ∃ value, compared_value st m = Some value
           ∧ ∀ p, value p.1 = metric_of st m p.
Proof.
  unfold tracked_metrics. rewrite !elem_of_cons, elem_of_nil.
  intros Hm Hne.
  destruct Hm as [->|[->|[->|[->|[->|[->|[->|[->|[->|[->|[]]]]]]]]]]];
    try done; eexists; (split; [reflexivity|]); intros p; reflexivity.
Qed.

End Compared.

Section RankFacts.
Variable st : Store.

Lemma ranks_of_get_ranks player_id d m r :
  (m, r) ∈ ranks (Players.get_ranks st player_id d) →
  m ∈ tracked_metrics ∧ r = Players.calculate_rank st m (dict_get d m 0).
Proof.
  unfold ranks, tracked_metrics. simpl. rewrite !elem_of_cons, !elem_of_nil.
  intros Hin.
  repeat (destruct Hin as [Heq|Hin];
          [inversion Heq; subst; split; [auto 12|reflexivity]|]).
  destruct Hin.
Qed.

Lemma metric_of_total_turnovers p :
  metric_of st "totalTurnovers" p
  = turnover_rows st p.1 + passing_turnover_rows st p.1.
Proof. reflexivity. Qed.

Lemma turnover_rows_nonneg pk : (0 ≤ turnover_rows st pk)%Z.
Proof. unfold turnover_rows, Orm.count. lia. Qed.

Lemma passing_turnover_rows_nonneg pk : (0 ≤ passing_turnover_rows st pk)%Z.
Proof. unfold passing_turnover_rows, Orm.count. lia. Qed.

Lemma player_in_league pk player :
  players st !! pk = Some player → (pk, player) ∈ Orm.all_players st.
Proof. intros Hp. unfold Orm.all_players. by apply elem_of_map_to_list. Qed.

Lemma rows_where_lt {A} (P : A → Prop) `{∀ x, Decision (P x)} (l : list A) x :
  x ∈ l → ¬ P x → (rows_where P l < Z.of_nat (length l))%Z.
Proof.
  intros Hx HP. unfold rows_where.
  pose proof (length_filter_lt P l x Hx HP). lia.
Qed.

Lemma rows_where_ext_in {A} (P Q : A → Prop)
    `{∀ x, Decision (P x)} `{∀ x, Decision (Q x)} (l : list A) :
  Forall (λ x, P x ↔ Q x) l → rows_where P l = rows_where Q l.
Proof.
  unfold rows_where. induction 1 as [|x l Hx _ IH]; [done|].
  rewrite !filter_cons.
  destruct (decide (P x)), (decide (Q x)); simpl; try lia; tauto.
Qed.

End RankFacts.

(** X2. Whatever the stat name and the value, the rank that
    [calculate_rank] returns lies between 1 and the number of players of the
    league plus one. *)
Theorem rank_within_bounds st m v :
  (1 ≤ Players.calculate_rank st m v ≤ 1 + Z.of_nat (size (players st)))%Z.
Proof.
  rewrite calculate_rank_compared, <- all_players_length.
  destruct (compared_value st m) as [value|]; [|lia].
  pose proof (rows_where_bounds (λ p : Z * Player.t, value p.1 > v)
                (Orm.all_players st)).
  lia.
Qed.

(** X3. A greater value never gets a worse rank: for every stat name,
    [calculate_rank] is antitone in the player's value. *)
Theorem rank_antitone st m v v' :
  (v ≤ v')%Z →
  (Players.calculate_rank st m v' ≤ Players.calculate_rank st m v)%Z.
Proof.
  intros Hv. rewrite !calculate_rank_compared.
  destruct (compared_value st m) as [value|]; [|lia].
  apply Z.add_le_mono_r, rows_where_mono. intros p. lia.
Qed.

Lemma rank_antitone_witness :
  (40 ≤ 50)%Z
  ∧ (Players.calculate_rank Fixture.league_tied "totalPoints" 50
     ≤ Players.calculate_rank Fixture.league_tied "totalPoints" 40)%Z.
Proof.
  split; [lia|].
  apply (rank_antitone Fixture.league_tied "totalPoints" 40 50). lia.
Defined.

(** X4. The rank computed for [totalTurnovers] is never better than one
    plus the number of players whose summary holds a strictly greater
    [totalTurnovers]: the joined group only counts rows more than once. *)
Theorem turnover_rank_never_better st v :
  (expected_rank st "totalTurnovers" v
   ≤ Players.calculate_rank st "totalTurnovers" v)%Z.
Proof.
  rewrite calculate_rank_compared. unfold expected_rank.
  change (compared_value st "totalTurnovers")
    with (Some (λ pk, turnover_rows st pk * Z.max 1 (pass_rows st pk)
                      + passing_turnover_rows st pk * Z.max 1 (turnover_rows st pk))).
  rewrite Z.add_comm. apply Z.add_le_mono_r, rows_where_mono.
  intros p. rewrite metric_of_total_turnovers.
  pose proof (turnover_rows_nonneg st p.1).
  pose proof (passing_turnover_rows_nonneg st p.1). nia.
Qed.

(** X5. When no player of the league has a turnover row together with two
    or more passes, nor a passing turnover together with two or more
    turnover rows, the rank computed for [totalTurnovers] is one plus the
    number of players whose summary holds a strictly greater value. *)
Theorem turnover_rank_exact st v :
  Forall (λ p : Z * Player.t,
            (turnover_rows st p.1 = 0 ∨ pass_rows st p.1 ≤ 1)%Z
            ∧ (passing_turnover_rows st p.1 = 0 ∨ turnover_rows st p.1 ≤ 1)%Z)
         (Orm.all_players st) →
  Players.calculate_rank st "totalTurnovers" v
  = expected_rank st "totalTurnovers" v.
Proof.
  intros Hall. rewrite calculate_rank_compared. unfold expected_rank.
  change (compared_value st "totalTurnovers")
    with (Some (λ pk, turnover_rows st pk * Z.max 1 (pass_rows st pk)
                      + passing_turnover_rows st pk * Z.max 1 (turnover_rows st pk))).
  rewrite Z.add_comm. f_equal.
  apply rows_where_ext_in. eapply Forall_impl; [exact Hall|].
  intros p [HT HPT]. simpl. rewrite metric_of_total_turnovers.
  pose proof (turnover_rows_nonneg st p.1).
  pose proof (passing_turnover_rows_nonneg st p.1).
  assert (0 ≤ pass_rows st p.1)%Z by (unfold pass_rows, Orm.count; lia).
  assert (turnover_rows st p.1 * Z.max 1 (pass_rows st p.1) = turnover_rows st p.1) as ->
    by (destruct HT as [->|?]; [lia|]; rewrite Z.max_l by lia; lia).
  assert (passing_turnover_rows st p.1 * Z.max 1 (turnover_rows st p.1)
          = passing_turnover_rows st p.1) as ->
    by (destruct HPT as [->|?]; [lia|]; rewrite Z.max_l by lia; lia).
  done.
Qed.

Lemma turnover_rank_exact_witness :
  Players.calculate_rank Fixture.league_single_pass "totalTurnovers" 1
  = expected_rank Fixture.league_single_pass "totalTurnovers" 1.
Proof.
  apply (turnover_rank_exact Fixture.league_single_pass 1).
  refine (bool_decide_unpack _ _). vm_compute. exact I.
Defined.

Lemma rank_counts_strictly_greater_witness :
  "totalPoints" ∈ tracked_metrics
  ∧ "totalPoints" ≠ "totalTurnovers"
  ∧ Players.calculate_rank Fixture.league_tied "totalPoints" 40
    = expected_rank Fixture.league_tied "totalPoints" 40.
Proof.
  assert (Hin : "totalPoints" ∈ tracked_metrics).
  { unfold tracked_metrics. rewrite !elem_of_cons. auto. }
  assert (Hne : "totalPoints" ≠ "totalTurnovers") by discriminate.
  split; [exact Hin|]. split; [exact Hne|].
  apply (rank_counts_strictly_greater Fixture.league_tied 40 "totalPoints" Hin Hne).
Defined.

(** X6. For each of the nine metrics other than [totalTurnovers], the rank
    that [get_ranks] gives a player of the league on that player's own
    summary lies between 1 and the number of players. *)
Theorem own_rank_within_league st player_id s :
  summary_of st player_id s →
  ∀ m r, (m, r) ∈ ranks (Players.get_ranks st player_id (StatsDict s)) →
         m ≠ "totalTurnovers" →
         (1 ≤ r ≤ Z.of_nat (size (players st)))%Z.
Proof.
  intros (pk & player & _ & Hp & ->)%summary_of_inv m r
         [Hm ->]%ranks_of_get_ranks Hne.
  destruct (compared_value_metric st m Hm Hne) as (value & Hvalue & Hmetric).
  rewrite calculate_rank_compared, Hvalue, <- all_players_length.
  pose proof (rows_where_bounds (λ p : Z * Player.t,
                value p.1 > dict_get (StatsDict (Players.player_summary st pk player)) m 0)
                (Orm.all_players st)) as Hb.
  pose proof (rows_where_lt (λ p : Z * Player.t,
                value p.1 > dict_get (StatsDict (Players.player_summary st pk player)) m 0)
                (Orm.all_players st) (pk, player) (player_in_league st pk player Hp))
    as Hlt.
  split; [lia|]. apply Z.lt_succ_r. rewrite <- Z.add_1_r. apply Z.add_lt_mono_r.
  apply Hlt. rewrite Hmetric. unfold metric_of. simpl. lia.
Qed.

Lemma own_rank_within_league_witness :
  let s := Players.player_summary Fixture.league 3 (Fixture.player "Cy") in
  summary_of Fixture.league "3" s
  ∧ (1 ≤ RankSet.totalPointsRank (Players.get_ranks Fixture.league "3" (StatsDict s))
     ≤ 3)%Z.
Proof.
  intros s. split; [reflexivity|].
  apply (own_rank_within_league Fixture.league "3" s eq_refl "totalPoints").
  - unfold ranks. rewrite !elem_of_cons. auto.
  - discriminate.
Defined.

(** X7. For each of the nine metrics other than [totalTurnovers], a value
    is ranked 1 exactly when no player of the league has a strictly greater
    value of that metric in its summary. *)
Theorem rank_one_iff_no_greater st m v :
  m ∈ tracked_metrics → m ≠ "totalTurnovers" →
  Players.calculate_rank st m v = 1
  ↔ Forall (λ p, (metric_of st m p ≤ v)%Z) (Orm.all_players st).
Proof.
  intros Hm Hne.
  destruct (compared_value_metric st m Hm Hne) as (value & Hvalue & Hmetric).
  rewrite calculate_rank_compared, Hvalue.
  transitivity (rows_where (λ p : Z * Player.t, value p.1 > v) (Orm.all_players st) = 0).
  { split; intros Hr; lia. }
  rewrite rows_where_zero. apply Forall_iff. intros p. rewrite Hmetric. lia.
Qed.

Lemma rank_one_iff_no_greater_witness :
  "totalPoints" ∈ tracked_metrics
  ∧ "totalPoints" ≠ "totalTurnovers"
  ∧ Forall (λ p, (metric_of Fixture.league_tied "totalPoints" p ≤ 50)%Z)
      (Orm.all_players Fixture.league_tied)
  ∧ Players.calculate_rank Fixture.league_tied "totalPoints" 50 = 1.
Proof.
  assert (Hin : "totalPoints" ∈ tracked_metrics).
  { unfold tracked_metrics. rewrite !elem_of_cons. auto. }
  assert (Hne : "totalPoints" ≠ "totalTurnovers") by discriminate.
  assert (Hall : Forall (λ p, (metric_of Fixture.league_tied "totalPoints" p ≤ 50)%Z)
                   (Orm.all_players Fixture.league_tied)).
  { refine (bool_decide_unpack _ _). vm_compute. exact I. }
  split; [exact Hin|]. split; [exact Hne|]. split; [exact Hall|].
  apply (rank_one_iff_no_greater Fixture.league_tied "totalPoints" 50 Hin Hne).
  exact Hall.
Defined.

(** ** Further properties of the summary *)

Section SummaryFacts.

Lemma filter_player_insert_other `{Event A} (pk : Z) (n : nat) (e : A) (l : list A) :
  player_of e ≠ pk →
  Orm.filter_player pk (insert_at n e l) = Orm.filter_player pk l.
Proof.
  intros He. unfold Orm.filter_player, insert_at.
  rewrite filter_app, filter_cons, decide_False by done.
  by rewrite <- filter_app, take_drop.
Qed.

Lemma count_unrecognised `{Event A} (pk : Z) (table : list A) :
  Orm.count (filter (λ e, ¬ recognised (action_type_of e)) (Orm.filter_player pk table))
  = unrecognised_rows pk table.
Proof.
  unfold Orm.count, Orm.filter_player, unrecognised_rows, rows_where.
  rewrite list_filter_filter. do 2 f_equal. apply list_filter_iff. tauto.
Qed.

(** A query set is its four categories and its rows of no category. *)
Lemma count_split `{Event A} (qs : list A) :
  Orm.count qs
  = Orm.count (Orm.filter_action "pickAndRoll" qs)
    + Orm.count (Orm.filter_action "isolation" qs)
    + Orm.count (Orm.filter_action "postUp" qs)
    + Orm.count (Orm.filter_action "offBallScreen" qs)
    + Orm.count (filter (λ e, ¬ recognised (action_type_of e)) qs).
Proof. rewrite !count_sum_ones. apply sum_by_action. Qed.

Lemma count_nonneg {A} (l : list A) : (0 ≤ Orm.count l)%Z.
Proof. unfold Orm.count. lia. Qed.

Lemma count_filter_le {A} (P : A → Prop) `{∀ x, Decision (P x)} (l : list A) :
  (Orm.count (filter P l) ≤ Orm.count l)%Z.
Proof. unfold Orm.count. pose proof (length_filter P l). lia. Qed.

Lemma count_filter_action_le `{Event A} (P : A → Prop) `{∀ x, Decision (P x)}
    (a : string) (qs : list A) :
  (Orm.count (filter P (Orm.filter_action a qs)) ≤ Orm.count (filter P qs))%Z.
Proof.
  unfold Orm.filter_action, Orm.count.
  induction qs as [|e qs IH]; [done|].
  rewrite !filter_cons.
  destruct (decide (action_type_of e = a)), (decide (P e));
    rewrite ?filter_cons, ?decide_True, ?decide_False by done; simpl; lia.
Qed.

End SummaryFacts.

(** X8. The summary of a player reads that player's rows only: with one
    more event of another player in the store, at any position of its
    table, [get_player_summary_stats] returns the same result. *)
Theorem other_players_events_ignored st player_id pk n ev :
  Py.int player_id = Some pk →
  event_player ev ≠ pk →
  Players.get_player_summary_stats (store_insert n ev st) player_id
  = Players.get_player_summary_stats st player_id.
Proof.
  intros Hint Hne. unfold Players.get_player_summary_stats. rewrite Hint.
  replace (players (store_insert n ev st)) with (players st) by (by destruct ev).
  destruct (players st !! pk) as [player|]; [|done].
  do 2 f_equal. unfold Players.player_summary.
  destruct ev as [e|e|e]; simpl in *.
  - by rewrite (@filter_player_insert_other _ shot_event pk n e (shots st) Hne).
  - by rewrite (@filter_player_insert_other _ pass_event pk n e (passes st) Hne).
  - by rewrite (@filter_player_insert_other _ turnover_event pk n e (turnovers st) Hne).
Qed.

Lemma other_players_events_ignored_witness :
  let ev := APass (Fixture.pass 9 3 true true "postUp") in
  Py.int "2" = Some 2
  ∧ event_player ev ≠ 2
  ∧ Players.get_player_summary_stats (store_insert 1 ev Fixture.league) "2"
    = Players.get_player_summary_stats Fixture.league "2".
Proof.
  intros ev.
  assert (Hne : event_player ev ≠ 2) by discriminate.
  split; [reflexivity|]. split; [exact Hne|].
  apply (other_players_events_ignored Fixture.league "2" 2 1 ev eq_refl Hne).
Defined.

(** X9. The four action counts of a returned summary, together with the
    player's rows of no category in the three tables, add up to the
    player's events: [totalShotAttempts + totalPasses] plus the turnover
    rows, which are [totalTurnovers - totalPassingTurnovers]. *)
Theorem action_counts_cover_events st player_id s :
  summary_of st player_id s →
  let pk := PlayerSummary.playerID s in
  PlayerSummary.pickAndRollCount s + PlayerSummary.isolationCount s
  + PlayerSummary.postUpCount s + PlayerSummary.offBallScreenCount s
  + unrecognised_rows pk (shots st) + unrecognised_rows pk (passes st)
  + unrecognised_rows pk (turnovers st)
  = PlayerSummary.totalShotAttempts s + PlayerSummary.totalPasses s
    + (PlayerSummary.totalTurnovers s - PlayerSummary.totalPassingTurnovers s).
Proof.
  intros (pk & player & _ & _ & ->)%summary_of_inv. simpl.
  rewrite <- !count_unrecognised.
  rewrite (count_split (Orm.filter_player pk (shots st))),
          (count_split (Orm.filter_player pk (passes st))),
          (count_split (Orm.filter_player pk (turnovers st))).
  lia.
Qed.

Lemma action_counts_cover_events_witness :
  let s := Players.player_summary Fixture.league_with_transition 1
             (Fixture.player "Ada") in
  summary_of Fixture.league_with_transition "1" s
  ∧ unrecognised_rows 1 (shots Fixture.league_with_transition) = 1
  ∧ PlayerSummary.pickAndRollCount s + PlayerSummary.isolationCount s
    + PlayerSummary.postUpCount s + PlayerSummary.offBallScreenCount s
    + unrecognised_rows 1 (shots Fixture.league_with_transition)
    + unrecognised_rows 1 (passes Fixture.league_with_transition)
    + unrecognised_rows 1 (turnovers Fixture.league_with_transition)
    = PlayerSummary.totalShotAttempts s + PlayerSummary.totalPasses s
      + (PlayerSummary.totalTurnovers s - PlayerSummary.totalPassingTurnovers s).
Proof.
  intros s. split; [reflexivity|]. split; [reflexivity|].
  apply (action_counts_cover_events Fixture.league_with_transition "1" s eq_refl).
Defined.

(** X10. Each action count of a returned summary agrees with the breakdown
    of its category: it is that breakdown's [totalShotAttempts] plus its
    [totalPasses] plus its [totalTurnovers] less its
    [totalPassingTurnovers]. *)
Theorem action_count_matches_breakdown st player_id s :
  summary_of st player_id s →
  ∀ a b, (a, b) ∈ breakdowns s →
    action_count_of s a
    = ActionStats.totalShotAttempts b + ActionStats.totalPasses b
      + (ActionStats.totalTurnovers b - ActionStats.totalPassingTurnovers b).
Proof.
  intros (pk & player & _ & _ & ->)%summary_of_inv a b.
  unfold breakdowns. rewrite !elem_of_cons, elem_of_nil.
  intros [Heq|[Heq|[Heq|[Heq|[]]]]]; inversion Heq; subst;
    unfold action_count_of; simpl; lia.
Qed.

Lemma action_count_matches_breakdown_witness :
  let s := Players.player_summary Fixture.league 2 (Fixture.player "Ben") in
  summary_of Fixture.league "2" s
  ∧ PlayerSummary.postUpCount s
    = ActionStats.totalShotAttempts (PlayerSummary.postUp s)
      + ActionStats.totalPasses (PlayerSummary.postUp s)
      + (ActionStats.totalTurnovers (PlayerSummary.postUp s)
         - ActionStats.totalPassingTurnovers (PlayerSummary.postUp s)).
Proof.
  intros s. split; [reflexivity|].
  apply (action_count_matches_breakdown Fixture.league "2" s eq_refl "postUp").
  unfold breakdowns. rewrite !elem_of_cons. auto.
Defined.

(** X11. For each of the five count metrics the sum over the four category
    breakdowns never exceeds the overall total of a returned summary; for
    [totalShotAttempts] and [totalPasses] the overall total is that sum
    plus the number of the player's shots, or passes, of no category. *)
Theorem category_sums_within_totals st player_id s :
  summary_of st player_id s →
  let pk := PlayerSummary.playerID s in
  PlayerSummary.totalShotAttempts s
  = over_categories ActionStats.totalShotAttempts s + unrecognised_rows pk (shots st)
  ∧ PlayerSummary.totalPasses s
    = over_categories ActionStats.totalPasses s + unrecognised_rows pk (passes st)
  ∧ (over_categories ActionStats.totalPotentialAssists s
     ≤ PlayerSummary.totalPotentialAssists s)%Z
  ∧ (over_categories ActionStats.totalPassingTurnovers s
     ≤ PlayerSummary.totalPassingTurnovers s)%Z
  ∧ (over_categories ActionStats.totalTurnovers s
     ≤ PlayerSummary.totalTurnovers s)%Z.
Proof.
  intros (pk & player & _ & _ & ->)%summary_of_inv. unfold over_categories. simpl.
  rewrite <- !count_unrecognised.
  pose proof (count_split (Orm.filter_player pk (shots st))) as HS.
  pose proof (count_split (Orm.filter_player pk (passes st))) as HP.
  pose proof (count_split (Orm.filter_player pk (turnovers st))) as HT.
  pose proof (sum_by_action
                (λ p, if decide (Pass.potential_assist p = true) then 1 else 0)
                (Orm.filter_player pk (passes st))) as HA.
  pose proof (sum_by_action
                (λ p, if decide (Pass.turnover p = true) then 1 else 0)
                (Orm.filter_player pk (passes st))) as HU.
  rewrite <- !count_filter_sum in HA, HU.
  pose proof (count_nonneg (filter (λ e : Turnover.t, ¬ recognised (action_type_of e))
                              (Orm.filter_player pk (turnovers st)))).
  pose proof (count_nonneg
                (filter (λ p, Pass.potential_assist p = true)
                   (filter (λ e : Pass.t, ¬ recognised (action_type_of e))
                      (Orm.filter_player pk (passes st))))).
  pose proof (count_nonneg
                (filter (λ p, Pass.turnover p = true)
                   (filter (λ e : Pass.t, ¬ recognised (action_type_of e))
                      (Orm.filter_player pk (passes st))))).
  repeat split; lia.
Qed.

Lemma category_sums_within_totals_witness :
  let s := Players.player_summary Fixture.league_with_transition 1
             (Fixture.player "Ada") in
  summary_of Fixture.league_with_transition "1" s
  ∧ PlayerSummary.totalShotAttempts s
    = over_categories ActionStats.totalShotAttempts s
      + unrecognised_rows 1 (shots Fixture.league_with_transition).
Proof.
  intros s. split; [reflexivity|].
  apply (category_sums_within_totals Fixture.league_with_transition "1" s eq_refl).
Defined.

Section DetailLists.

Lemma sum_points_detail (S : list Shot.t) :
  Py.sum (ShotData.points <$>
            ((λ shot, {| ShotData.loc := [Shot.shot_loc_x shot; Shot.shot_loc_y shot];
                         ShotData.points := Shot.points shot |}) <$> S))
  = Py.sum (Shot.points <$> S).
Proof. by rewrite <- list_fmap_compose. Qed.

Lemma rows_where_fmap {A B} (f : A → B) (P : B → Prop) `{∀ y, Decision (P y)}
    (l : list A) :
  rows_where P (f <$> l) = Orm.count (filter (λ x, P (f x)) l).
Proof.
  unfold rows_where, Orm.count. f_equal.
  induction l as [|x l IH]; [done|].
  rewrite fmap_cons, !filter_cons. destruct (decide (P (f x))); simpl; by rewrite IH.
Qed.

End DetailLists.

(** X12. In each category breakdown of a returned summary the detail lists
    reproduce the scalars: the points of the [shots] entries add up to
    [totalPoints], the [passes] entries flagged [isPotentialAssist] number
    [totalPotentialAssists], those flagged [isTurnover] number
    [totalPassingTurnovers], and [totalTurnovers] is the number of
    [turnovers] entries plus the number of [passes] entries flagged
    [isTurnover]. *)
Theorem detail_lists_reproduce_scalars st player_id s :
  summary_of st player_id s →
  ∀ a b, (a, b) ∈ breakdowns s →
    Py.sum (ShotData.points <$> ActionStats.shots b) = ActionStats.totalPoints b
    ∧ rows_where (λ p, PassData.isPotentialAssist p = true) (ActionStats.passes b)
      = ActionStats.totalPotentialAssists b
    ∧ rows_where (λ p, PassData.isTurnover p = true) (ActionStats.passes b)
      = ActionStats.totalPassingTurnovers b
    ∧ ActionStats.totalTurnovers b
      = Z.of_nat (length (ActionStats.turnovers b))
        + rows_where (λ p, PassData.isTurnover p = true) (ActionStats.passes b).
Proof.
  intros (pk & player & _ & _ & ->)%summary_of_inv a b [_ ->]%breakdowns_summary.
  simpl. rewrite sum_points_detail, !rows_where_fmap, length_fmap. simpl.
  unfold Orm.count. repeat split; lia.
Qed.

Lemma detail_lists_reproduce_scalars_witness :
  let s := Players.player_summary Fixture.league 1 (Fixture.player "Ada") in
  summary_of Fixture.league "1" s
  ∧ Py.sum (ShotData.points <$> ActionStats.shots (PlayerSummary.pickAndRoll s))
    = ActionStats.totalPoints (PlayerSummary.pickAndRoll s).
Proof.
  intros s. split; [reflexivity|].
  apply (detail_lists_reproduce_scalars Fixture.league "1" s eq_refl "pickAndRoll").
  unfold breakdowns. rewrite !elem_of_cons. auto.
Defined.

(** X13. The scalars of a returned summary are ordered as counts of sets
    included in one another: overall and in each category breakdown,
    [totalPotentialAssists] and [totalPassingTurnovers] lie between 0 and
    [totalPasses], and [totalPassingTurnovers] is at most [totalTurnovers];
    each count of a breakdown lies between 0 and the overall count. *)
Theorem scalars_are_ordered st player_id s :
  summary_of st player_id s →
  (0 ≤ PlayerSummary.totalPotentialAssists s ≤ PlayerSummary.totalPasses s)%Z
  ∧ (0 ≤ PlayerSummary.totalPassingTurnovers s ≤ PlayerSummary.totalPasses s)%Z
  ∧ (PlayerSummary.totalPassingTurnovers s ≤ PlayerSummary.totalTurnovers s)%Z
  ∧ ∀ a b, (a, b) ∈ breakdowns s →
      (0 ≤ ActionStats.totalPotentialAssists b ≤ ActionStats.totalPasses b)%Z
      ∧ (0 ≤ ActionStats.totalPassingTurnovers b ≤ ActionStats.totalPasses b)%Z
      ∧ (ActionStats.totalPassingTurnovers b ≤ ActionStats.totalTurnovers b)%Z
      ∧ (0 ≤ ActionStats.totalShotAttempts b ≤ PlayerSummary.totalShotAttempts s)%Z
      ∧ (ActionStats.totalPasses b ≤ PlayerSummary.totalPasses s)%Z
      ∧ (ActionStats.totalPotentialAssists b ≤ PlayerSummary.totalPotentialAssists s)%Z
      ∧ (ActionStats.totalPassingTurnovers b ≤ PlayerSummary.totalPassingTurnovers s)%Z
      ∧ (ActionStats.totalTurnovers b ≤ PlayerSummary.totalTurnovers s)%Z.
Proof.
  intros (pk & player & _ & _ & ->)%summary_of_inv. simpl.
  set (S := Orm.filter_player pk (shots st)).
  set (P := Orm.filter_player pk (passes st)).
  set (T := Orm.filter_player pk (turnovers st)).
  pose proof (count_nonneg T).
  pose proof (count_nonneg (filter (λ p, Pass.potential_assist p = true) P)).
  pose proof (count_nonneg (filter (λ p, Pass.turnover p = true) P)).
  pose proof (count_filter_le (λ p, Pass.potential_assist p = true) P).
  pose proof (count_filter_le (λ p, Pass.turnover p = true) P).
  split; [lia|]. split; [lia|]. split; [lia|].
  intros a b [_ ->]%breakdowns_summary. simpl. fold S P T.
  pose proof (count_nonneg (Orm.filter_action a S)).
  pose proof (count_nonneg (Orm.filter_action a T)).
  pose proof (count_nonneg
                (filter (λ p, Pass.potential_assist p = true) (Orm.filter_action a P))).
  pose proof (count_nonneg
                (filter (λ p, Pass.turnover p = true) (Orm.filter_action a P))).
  pose proof (count_filter_le (λ p, Pass.potential_assist p = true)
                (Orm.filter_action a P)).
  pose proof (count_filter_le (λ p, Pass.turnover p = true) (Orm.filter_action a P)).
  pose proof (count_filter_le (λ e, action_type_of e = a) S) as HS.
  pose proof (count_filter_le (λ e, action_type_of e = a) P) as HP.
  pose proof (count_filter_le (λ e, action_type_of e = a) T) as HT.
  pose proof (count_filter_action_le (λ p, Pass.potential_assist p = true) a P).
  pose proof (count_filter_action_le (λ p, Pass.turnover p = true) a P).
  unfold Orm.filter_action in *. repeat split; lia.
Qed.

Lemma scalars_are_ordered_witness :
  let s := Players.player_summary Fixture.league 2 (Fixture.player "Ben") in
  summary_of Fixture.league "2" s
  ∧ (0 ≤ PlayerSummary.totalPassingTurnovers s ≤ PlayerSummary.totalPasses s)%Z.
Proof.
  intros s. split; [reflexivity|].
  apply (scalars_are_ordered Fixture.league "2" s eq_refl).
Defined.

Section Points.

Lemma sum_points_bounds (S : list Shot.t) :
  Forall (λ e, (0 ≤ Shot.points e ≤ 4)%Z) S →
  (0 ≤ Py.sum (Shot.points <$> S) ≤ 4 * Orm.count S)%Z.
Proof.
  unfold Orm.count. induction 1 as [|e S He _ IH]; [done|].
  rewrite fmap_cons, sum_cons. simpl length. lia.
Qed.

Lemma filter_action_points (a : string) (S : list Shot.t) :
  Forall (λ e, (0 ≤ Shot.points e ≤ 4)%Z) S →
  Forall (λ e, (0 ≤ Shot.points e ≤ 4)%Z) (Orm.filter_action a S).
Proof.
  intros HS. apply Forall_forall. intros e [_ Hin]%list_elem_of_filter.
  by eapply Forall_forall in HS.
Qed.

Lemma filter_player_none `{Event A} (pk : Z) (table : list A) :
  Forall (λ e, player_of e ≠ pk) table → Orm.filter_player pk table = [].
Proof.
  unfold Orm.filter_player. induction 1 as [|e l He _ IH]; [done|].
  by rewrite filter_cons, decide_False.
Qed.

End Points.

(** X14. When every shot of the player is worth between 0 and 4 points, as
    the model of a shot documents, [totalPoints] of a returned summary lies
    between 0 and four times [totalShotAttempts], overall and in each
    category breakdown. *)
Theorem points_within_bounds st player_id s :
  summary_of st player_id s →
  (∀ e, e ∈ shots st → Shot.player_id e = PlayerSummary.playerID s →
        (0 ≤ Shot.points e ≤ 4)%Z) →
  (0 ≤ PlayerSummary.totalPoints s ≤ 4 * PlayerSummary.totalShotAttempts s)%Z
  ∧ ∀ a b, (a, b) ∈ breakdowns s →
      (0 ≤ ActionStats.totalPoints b ≤ 4 * ActionStats.totalShotAttempts b)%Z.
Proof.
  intros (pk & player & _ & _ & ->)%summary_of_inv. simpl. intros Hpoints.
  assert (HS : Forall (λ e, (0 ≤ Shot.points e ≤ 4)%Z)
                 (Orm.filter_player pk (shots st))).
  { apply Forall_forall. intros e [He Hin]%list_elem_of_filter. auto. }
  split; [by apply sum_points_bounds|].
  intros a b [_ ->]%breakdowns_summary. simpl.
  by apply sum_points_bounds, filter_action_points.
Qed.

Lemma points_within_bounds_witness :
  let s := Players.player_summary Fixture.league 1 (Fixture.player "Ada") in
  summary_of Fixture.league "1" s
  ∧ (0 ≤ PlayerSummary.totalPoints s ≤ 4 * PlayerSummary.totalShotAttempts s)%Z.
Proof.
  intros s. split; [reflexivity|].
  apply (points_within_bounds Fixture.league "1" s eq_refl).
  intros e He _. revert e He. apply Forall_forall.
  refine (bool_decide_unpack _ _). vm_compute. exact I.
Defined.

(** X15. A player of the store without any shot, pass or turnover row is
    not an error: the summary is returned, with the six overall totals and
    the four action counts at 0 and the four category breakdowns empty. *)
Theorem player_without_events st player_id pk player :
  Py.int player_id = Some pk →
  players st !! pk = Some player →
  Forall (λ e, Shot.player_id e ≠ pk) (shots st) →
  Forall (λ e, Pass.player_id e ≠ pk) (passes st) →
  Forall (λ e, Turnover.player_id e ≠ pk) (turnovers st) →
  ∃ s, summary_of st player_id s
       ∧ PlayerSummary.name s = Player.name player
       ∧ summary_totals s = [0; 0; 0; 0; 0; 0]
       ∧ snd <$> action_counts s = [0; 0; 0; 0]
       ∧ snd <$> breakdowns s = [empty_stats; empty_stats; empty_stats; empty_stats].
Proof.
  intros Hint Hp HS HP HT.
  exists (Players.player_summary st pk player). split.
  { unfold summary_of, Players.get_player_summary_stats. by rewrite Hint, Hp. }
  pose proof (@filter_player_none _ shot_event pk (shots st) HS) as ES.
  pose proof (@filter_player_none _ pass_event pk (passes st) HP) as EP.
  pose proof (@filter_player_none _ turnover_event pk (turnovers st) HT) as ET.
  unfold summary_totals, action_counts, breakdowns, Players.player_summary. simpl.
  rewrite ES, EP, ET. repeat split; reflexivity.
Qed.

Lemma player_without_events_witness :
  ∃ s, summary_of Fixture.league_with_transition "3" s
       ∧ summary_totals s = [0; 0; 0; 0; 0; 0].
Proof.
  destruct (player_without_events Fixture.league_with_transition "3" 3
              (Fixture.player "Cy") eq_refl eq_refl)
    as (s & Hs & _ & Htotals & _).
  - refine (bool_decide_unpack _ _). vm_compute. exact I.
  - constructor.
  - constructor.
  - exists s. split; [exact Hs|exact Htotals].
Defined.

(** ** Events of one of the four categories *)

Section Recognised.

Lemma filter_action_insert `{Event A} (a : string) (e : A) (l1 l2 : list A) :
  Orm.filter_action a (l1 ++ e :: l2)
  = if decide (action_type_of e = a)
    then Orm.filter_action a l1 ++ e :: Orm.filter_action a l2
    else Orm.filter_action a (l1 ++ l2).
Proof.
  unfold Orm.filter_action. rewrite !filter_app, filter_cons.
  by destruct (decide (action_type_of e = a)).
Qed.

Lemma filter_action_app `{Event A} (a : string) (l1 l2 : list A) :
  Orm.filter_action a (l1 ++ l2) = Orm.filter_action a l1 ++ Orm.filter_action a l2.
Proof. apply filter_app. Qed.

Lemma filter_player_insert_at `{Event A} (pk : Z) (n : nat) (e : A) (l : list A) :
  player_of e = pk →
  ∃ l1 l2, Orm.filter_player pk l = l1 ++ l2
           ∧ Orm.filter_player pk (insert_at n e l) = l1 ++ e :: l2.
Proof.
  intros He.
  exists (Orm.filter_player pk (take n l)), (Orm.filter_player pk (drop n l)).
  split.
  - by rewrite <- filter_player_app, take_drop.
  - by apply filter_player_insert.
Qed.

Lemma action_stats_with_shot S1 S2 e P T a :
  if decide (a = Shot.action_type e)
  then stats_scalars (Players.get_action_stats (S1 ++ e :: S2) P T a)
       = zip_with Z.add (stats_scalars (Players.get_action_stats (S1 ++ S2) P T a))
           [1; Shot.points e; 0; 0; 0; 0]
  else Players.get_action_stats (S1 ++ e :: S2) P T a
       = Players.get_action_stats (S1 ++ S2) P T a.
Proof.
  unfold Players.get_action_stats, stats_scalars.
  rewrite (@filter_action_insert _ shot_event a e S1 S2). simpl.
  destruct (decide (a = Shot.action_type e)) as [->|Hne].
  - rewrite decide_True by done.
    rewrite (@filter_action_app _ shot_event), count_insert, sum_insert.
    simpl. repeat (f_equal; try lia).
  - by rewrite decide_False by done.
Qed.

Lemma action_stats_with_pass S P1 P2 e T a :
  if decide (a = Pass.action_type e)
  then stats_scalars (Players.get_action_stats S (P1 ++ e :: P2) T a)
       = zip_with Z.add (stats_scalars (Players.get_action_stats S (P1 ++ P2) T a))
           [0; 0; 1; Z.b2z (Pass.potential_assist e);
            Z.b2z (Pass.turnover e); Z.b2z (Pass.turnover e)]
  else Players.get_action_stats S (P1 ++ e :: P2) T a
       = Players.get_action_stats S (P1 ++ P2) T a.
Proof.
  unfold Players.get_action_stats, stats_scalars.
  rewrite (@filter_action_insert _ pass_event a e P1 P2). simpl.
  destruct (decide (a = Pass.action_type e)) as [->|Hne].
  - rewrite decide_True by done.
    rewrite (@filter_action_app _ pass_event), count_insert,
      !count_filter_insert, !b2z_decide.
    simpl. repeat (f_equal; try lia).
  - by rewrite decide_False by done.
Qed.

Lemma action_stats_with_turnover S P T1 T2 e a :
  if decide (a = Turnover.action_type e)
  then stats_scalars (Players.get_action_stats S P (T1 ++ e :: T2) a)
       = zip_with Z.add (stats_scalars (Players.get_action_stats S P (T1 ++ T2) a))
           [0; 0; 0; 0; 1; 0]
  else Players.get_action_stats S P (T1 ++ e :: T2) a
       = Players.get_action_stats S P (T1 ++ T2) a.
Proof.
  unfold Players.get_action_stats, stats_scalars.
  rewrite (@filter_action_insert _ turnover_event a e T1 T2). simpl.
  destruct (decide (a = Turnover.action_type e)) as [->|Hne].
  - rewrite decide_True by done.
    rewrite (@filter_action_app _ turnover_event), count_insert.
    simpl. repeat (f_equal; try lia).
  - by rewrite decide_False by done.
Qed.

(** The breakdown of a category before and after one more event. *)
Lemma action_stats_with_event st pk n ev a :
  event_player ev = pk →
  let stats st :=
    Players.get_action_stats (Orm.filter_player pk (shots st))
      (Orm.filter_player pk (passes st)) (Orm.filter_player pk (turnovers st)) a in
  if decide (a = event_action_type ev)
  then stats_scalars (stats (store_insert n ev st))
       = zip_with Z.add (stats_scalars (stats st)) (event_deltas ev)
  else stats (store_insert n ev st) = stats st.
Proof.
  intros Hpk. destruct ev as [e|e|e]; simpl in *.
  - destruct (@filter_player_insert_at _ shot_event pk n e (shots st) Hpk)
      as (l1 & l2 & -> & ->).
    apply action_stats_with_shot.
  - destruct (@filter_player_insert_at _ pass_event pk n e (passes st) Hpk)
      as (l1 & l2 & -> & ->).
    apply action_stats_with_pass.
  - destruct (@filter_player_insert_at _ turnover_event pk n e (turnovers st) Hpk)
      as (l1 & l2 & -> & ->).
    apply action_stats_with_turnover.
Qed.

Lemma count_action_insert `{Event A} (a : string) (e : A) (l1 l2 : list A) :
  Orm.count (Orm.filter_action a (l1 ++ e :: l2))
  = Orm.count (Orm.filter_action a (l1 ++ l2))
    + (if decide (a = action_type_of e) then 1 else 0).
Proof.
  rewrite filter_action_insert.
  destruct (decide (action_type_of e = a)) as [<-|Hne].
  - rewrite decide_True by done. rewrite filter_action_app. apply count_insert.
  - rewrite decide_False by done. lia.
Qed.

(** The action counts of the player before and after one more event. *)
Lemma action_count_with_event st pk n ev a :
  event_player ev = pk →
  Players.action_count (store_insert n ev st) a pk
  = Players.action_count st a pk
    + (if decide (a = event_action_type ev) then 1 else 0).
Proof.
  intros Hpk. unfold Players.action_count. destruct ev as [e|e|e]; simpl in *.
  - destruct (@filter_player_insert_at _ shot_event pk n e (shots st) Hpk)
      as (l1 & l2 & -> & ->).
    rewrite (@count_action_insert _ shot_event). simpl. lia.
  - destruct (@filter_player_insert_at _ pass_event pk n e (passes st) Hpk)
      as (l1 & l2 & -> & ->).
    rewrite (@count_action_insert _ pass_event). simpl. lia.
  - destruct (@filter_player_insert_at _ turnover_event pk n e (turnovers st) Hpk)
      as (l1 & l2 & -> & ->).
    rewrite (@count_action_insert _ turnover_event). simpl. lia.
Qed.

(** The overall totals of the player before and after one more event. *)
Lemma totals_with_event st pk player n ev :
  event_player ev = pk →
  summary_totals (Players.player_summary (store_insert n ev st) pk player)
  = zip_with Z.add (summary_totals (Players.player_summary st pk player))
      (event_deltas ev).
Proof.
  intros Hpk. unfold summary_totals, Players.player_summary.
  destruct ev as [e|e|e]; simpl in *.
  - destruct (@filter_player_insert_at _ shot_event pk n e (shots st) Hpk)
      as (l1 & l2 & -> & ->).
    rewrite count_insert, sum_insert. repeat (f_equal; try lia).
  - destruct (@filter_player_insert_at _ pass_event pk n e (passes st) Hpk)
      as (l1 & l2 & -> & ->).
    rewrite count_insert, !count_filter_insert, !b2z_decide.
    repeat (f_equal; try lia).
  - destruct (@filter_player_insert_at _ turnover_event pk n e (turnovers st) Hpk)
      as (l1 & l2 & -> & ->).
    rewrite count_insert. repeat (f_equal; try lia).
Qed.

End Recognised.

Lemma action_count_of_summary st pk player a :
  recognised a →
  action_count_of (Players.player_summary st pk player) a
  = Players.action_count st a pk.
Proof.
  unfold recognised, action_types. rewrite !elem_of_cons, elem_of_nil.
  intros [->|[->|[->|[->|[]]]]]; reflexivity.
Qed.

(** X16. One more event of the player, at any position of its table, is
    counted once in the overall totals of the summary, once in the action
    count and in the scalars of the category breakdown whose action type it
    carries, and leaves the other action counts and the other category
    breakdowns as they were. *)
Theorem event_counted_in_its_category st player_id s n ev :
  summary_of st player_id s →
  event_player ev = PlayerSummary.playerID s →
  ∃ s', summary_of (store_insert n ev st) player_id s'
    ∧ summary_totals s' = zip_with Z.add (summary_totals s) (event_deltas ev)
    ∧ (∀ a, recognised a →
         action_count_of s' a
         = action_count_of s a + (if decide (a = event_action_type ev) then 1 else 0))
    ∧ (∀ a b b', (a, b) ∈ breakdowns s → (a, b') ∈ breakdowns s' →
         if decide (a = event_action_type ev)
         then stats_scalars b' = zip_with Z.add (stats_scalars b) (event_deltas ev)
         else b' = b).
Proof.
  intros (pk & player & Hint & Hplayer & ->)%summary_of_inv Hpk. simpl in Hpk.
  exists (Players.player_summary (store_insert n ev st) pk player).
  split; [|split; [|split]].
  - unfold summary_of, Players.get_player_summary_stats. rewrite Hint.
    replace (players (store_insert n ev st)) with (players st) by (by destruct ev).
    by rewrite Hplayer.
  - by apply totals_with_event.
  - intros a Ha. rewrite !action_count_of_summary by done.
    by apply action_count_with_event.
  - intros a b b' [_ ->]%breakdowns_summary [_ ->]%breakdowns_summary.
    by apply (action_stats_with_event st pk n ev a).
Qed.

Lemma event_counted_in_its_category_witness :
  let s := Players.player_summary Fixture.league 2 (Fixture.player "Ben") in
  let ev := APass (Fixture.pass 9 2 false true "postUp") in
  summary_of Fixture.league "2" s
  ∧ event_player ev = PlayerSummary.playerID s
  ∧ ∃ s', summary_of (store_insert 0 ev Fixture.league) "2" s'
          ∧ summary_totals s' = zip_with Z.add (summary_totals s) [0; 0; 1; 0; 1; 1]
          ∧ PlayerSummary.postUpCount s' = PlayerSummary.postUpCount s + 1
          ∧ stats_scalars (PlayerSummary.postUp s')
            = zip_with Z.add (stats_scalars (PlayerSummary.postUp s)) [0; 0; 1; 0; 1; 1]
          ∧ PlayerSummary.isolation s' = PlayerSummary.isolation s.
Proof.
  intros s ev. split; [reflexivity|]. split; [reflexivity|].
  destruct (event_counted_in_its_category Fixture.league "2" s 0 ev eq_refl eq_refl)
    as (s' & Hs' & Htotals & Hcounts & Hstats).
  exists s'. split; [exact Hs'|]. split; [exact Htotals|].
  split; [|split].
  - apply (Hcounts "postUp"). unfold recognised, action_types.
    rewrite !elem_of_cons. auto.
  - apply (Hstats "postUp" (PlayerSummary.postUp s) (PlayerSummary.postUp s'));
      unfold breakdowns; rewrite !elem_of_cons; auto.
  - apply (Hstats "isolation" (PlayerSummary.isolation s) (PlayerSummary.isolation s'));
      unfold breakdowns; rewrite !elem_of_cons; auto.
Defined.

(** X17. The rank computed for [totalTurnovers] is one plus the number of
    players for whom the count over the joined group is strictly greater
    than the value: with [T] turnover rows, [P] passes and [PT] passes
    flagged as turnovers, that count is [T * max 1 P + PT * max 1 T]. *)
Theorem turnover_rank_formula st v :
  Players.calculate_rank st "totalTurnovers" v
  = 1 + rows_where
          (λ p : Z * Player.t,
             turnover_rows st p.1 * Z.max 1 (pass_rows st p.1)
             + passing_turnover_rows st p.1 * Z.max 1 (turnover_rows st p.1) > v)
          (Orm.all_players st).
Proof. rewrite calculate_rank_compared. simpl. lia. Qed.

(** ** The loader *)

Section Upserts.
Context {V : Type}.
Implicit Types (rows : list (Z * V)) (table : gmap Z V).

Lemma upserts_union rows table :
  upserts rows table = list_to_map (reverse rows) ∪ table.
Proof.
  unfold upserts. revert table. induction rows as [|[k v] rows IH]; intros table.
  - simpl. by rewrite (left_id_L ∅ (∪)).
  - simpl. rewrite IH, reverse_cons, list_to_map_app. simpl.
    rewrite <- (assoc_L (∪)). f_equal.
    by rewrite insert_empty, <- insert_union_singleton_l.
Qed.

(** Writing the same rows again changes nothing. *)
Lemma upserts_idemp rows table :
  upserts rows (upserts rows table) = upserts rows table.
Proof.
  rewrite !upserts_union, (assoc_L (∪)). f_equal. apply (idemp_L (∪)).
Qed.

Lemma upserts_dom rows table k :
  is_Some (upserts rows table !! k) ↔ k ∈ rows.*1 ∨ is_Some (table !! k).
Proof.
  rewrite upserts_union, lookup_union_is_Some.
  rewrite <- !elem_of_dom, dom_list_to_map_L, elem_of_list_to_set.
  by rewrite fmap_reverse, elem_of_reverse.
Qed.


Lemma upserts_other rows table k :
  k ∉ rows.*1 → upserts rows table !! k = table !! k.
Proof.
  intros Hk. rewrite upserts_union. apply lookup_union_r.
  apply not_elem_of_list_to_map_1. by rewrite fmap_reverse, elem_of_reverse.
Qed.

End Upserts.

Section LoaderSteps.
Import LoadData.

Lemma write_checked_ok (fk_ok : Db.t → Prop) `{∀ db, Decision (fk_ok db)} write db :
  fk_ok db → write_checked fk_ok write db = (write db, inl tt).
Proof. intros Hok. unfold write_checked. by rewrite decide_True. Qed.

Lemma write_checked_refused (fk_ok : Db.t → Prop) `{∀ db, Decision (fk_ok db)}
    write db :
  ¬ fk_ok db → write_checked fk_ok write db = (db, inr IntegrityError).
Proof. intros Hok. unfold write_checked. by rewrite decide_False. Qed.

(** A loop whose body either makes its write or raises, on a condition
    that the writes of the loop do not change: the loop makes every write
    when the condition holds for every element, and raises otherwise. *)
Lemma for_each_spec {A} (body : A → M unit)
    (ok : A → Db.t → Prop) (w : A → Db.t → Db.t) :
  (∀ x db, ok x db → body x db = (w x db, inl tt)) →
  (∀ x db, ¬ ok x db → ∃ db', body x db = (db', inr IntegrityError)) →
  (∀ x y db, ok x (w y db) ↔ ok x db) →
  (∀ x db, Decision (ok x db)) →
  ∀ xs db,
    (Forall (λ x, ok x db) xs →
     for_each xs body db = (foldl (λ d x, w x d) db xs, inl tt))
    ∧ (¬ Forall (λ x, ok x db) xs →
       ∃ db', for_each xs body db = (db', inr IntegrityError)).
Proof.
  intros Hok Hno Hinv Hdec xs. induction xs as [|x xs IH]; intros db.
  - split; [done|]. intros Hn. destruct Hn. constructor.
  - assert (Hframe : Forall (λ y, ok y (w x db)) xs ↔ Forall (λ y, ok y db) xs).
    { apply Forall_iff. intros y. apply Hinv. }
    simpl. unfold bind. destruct (Hdec x db) as [Hx|Hx].
    + rewrite (Hok x db Hx). destruct (IH (w x db)) as [IHok IHno]. split.
      * intros [_ Hxs]%Forall_cons. apply IHok. by apply Hframe.
      * intros Hn. apply IHno. intros Hxs. apply Hn. constructor; [done|].
        by apply Hframe.
    + destruct (Hno x db Hx) as [db' ->]. split.
      * by intros [? _]%Forall_cons.
      * intros _. by exists db'.
Qed.

(** Whatever a loop does, its writes keep what its body keeps. *)
Lemma for_each_keeps {A} (body : A → M unit) (R : Db.t → Db.t → Prop) :
  (∀ db, R db db) → (∀ a b c, R a b → R b c → R a c) →
  (∀ x db, R db (body x db).1) →
  ∀ xs db, R db (for_each xs body db).1.
Proof.
  intros Hrefl Htrans Hbody xs. induction xs as [|x xs IH]; intros db; [apply Hrefl|].
  simpl. unfold bind. pose proof (Hbody x db) as Hx.
  destruct (body x db) as [db1 [[]|e]]; simpl in *; [|done].
  eapply Htrans; [exact Hx|apply IH].
Qed.

Lemma bind_keeps {A B} (m : M A) (k : A → M B) (R : Db.t → Db.t → Prop) :
  (∀ a b c, R a b → R b c → R a c) →
  (∀ db, R db (m db).1) → (∀ a db, R db (k a db).1) →
  ∀ db, R db (bind m k db).1.
Proof.
  intros Htrans Hm Hk db. unfold bind. pose proof (Hm db) as H1.
  destruct (m db) as [db1 [a|e]]; simpl in *; [|done].
  eapply Htrans; [exact H1|apply Hk].
Qed.

Lemma write_checked_keeps (fk_ok : Db.t → Prop) `{∀ db, Decision (fk_ok db)}
    write (R : Db.t → Db.t → Prop) :
  (∀ db, R db db) → (∀ db, R db (write db)) →
  ∀ db, R db (write_checked fk_ok write db).1.
Proof.
  intros Hrefl Hw db. unfold write_checked. destruct (decide (fk_ok db)); simpl; auto.
Qed.

End LoaderSteps.

Section KeepsRows.
Import LoadData.

Lemma keeps_rows_refl db : keeps_rows db db.
Proof. by repeat split. Qed.

Lemma keeps_rows_trans a b c : keeps_rows a b → keeps_rows b c → keeps_rows a c.
Proof.
  intros (?&?&?&?&?&?) (?&?&?&?&?&?). repeat split; by etrans.
Qed.

Lemma put_keeps_rows db :
  (∀ k row, keeps_rows db (Db.put_team k row db))
  ∧ (∀ k row, keeps_rows db (Db.put_game k row db))
  ∧ (∀ k row, keeps_rows db (Db.put_player k row db))
  ∧ (∀ row, keeps_rows db (Db.put_shot row db))
  ∧ (∀ row, keeps_rows db (Db.put_pass row db))
  ∧ (∀ row, keeps_rows db (Db.put_turnover row db)).
Proof.
  repeat split; simpl; try done; apply dom_insert_subseteq.
Qed.

Lemma load_teams_keeps teams_data db : keeps_rows db (load_teams teams_data db).1.
Proof.
  unfold load_teams, Team_update_or_create.
  apply for_each_keeps; [apply keeps_rows_refl|apply keeps_rows_trans|].
  intros t d. apply write_checked_keeps; [apply keeps_rows_refl|].
  intros d'. apply put_keeps_rows.
Qed.

Lemma load_games_keeps games_data db : keeps_rows db (load_games games_data db).1.
Proof.
  unfold load_games, Game_update_or_create.
  apply for_each_keeps; [apply keeps_rows_refl|apply keeps_rows_trans|].
  intros g d. apply write_checked_keeps; [apply keeps_rows_refl|].
  intros d'. apply put_keeps_rows.
Qed.

Lemma load_players_keeps players_data db :
  keeps_rows db (load_players players_data db).1.
Proof.
  unfold load_players, Player_update_or_create, Shot_update_or_create,
    Pass_update_or_create, Turnover_update_or_create.
  apply for_each_keeps; [apply keeps_rows_refl|apply keeps_rows_trans|].
  intros p d.
  apply bind_keeps; [apply keeps_rows_trans| |].
  { intros d1. apply bind_keeps; [apply keeps_rows_trans| |].
    - apply write_checked_keeps; [apply keeps_rows_refl|].
      intros d'. apply put_keeps_rows.
    - intros _ d'. apply keeps_rows_refl. }
  intros player d1.
  apply bind_keeps; [apply keeps_rows_trans| |].
  { apply for_each_keeps; [apply keeps_rows_refl|apply keeps_rows_trans|].
    intros x d2. apply write_checked_keeps; [apply keeps_rows_refl|].
    intros d'. apply put_keeps_rows. }
  intros _ d2.
  apply bind_keeps; [apply keeps_rows_trans| |].
  { apply for_each_keeps; [apply keeps_rows_refl|apply keeps_rows_trans|].
    intros x d3. apply write_checked_keeps; [apply keeps_rows_refl|].
    intros d'. apply put_keeps_rows. }
  intros _ d3.
  apply for_each_keeps; [apply keeps_rows_refl|apply keeps_rows_trans|].
  intros x d4. apply write_checked_keeps; [apply keeps_rows_refl|].
  intros d'. apply put_keeps_rows.
Qed.

End KeepsRows.

(** X18. The loader never deletes: whether [main] returns or raises, every
    primary key that a table of the database held before the run is still
    in that table after it. *)
Theorem loader_never_deletes teams_data games_data players_data db :
  keeps_rows db (LoadData.main teams_data games_data players_data db).1.
Proof.
  unfold LoadData.main.
  apply bind_keeps; [apply keeps_rows_trans|apply load_teams_keeps|].
  intros _ d1.
  apply bind_keeps; [apply keeps_rows_trans|apply load_games_keeps|].
  intros _ d2. apply load_players_keeps.
Qed.

Section LoaderResult.
Import LoadData.

Lemma load_teams_result teams_data db :
  load_teams teams_data db
  = ({| Db.teams :=
          upserts ((λ t, (JsonTeam.team_id t, {| Team.name := JsonTeam.name t |}))
                     <$> teams_data) (Db.teams db);
        Db.games := Db.games db; Db.players := Db.players db;
        Db.shots := Db.shots db; Db.passes := Db.passes db;
        Db.turnovers := Db.turnovers db |}, inl tt).
Proof.
  unfold load_teams. revert db. induction teams_data as [|t T IH]; intros db.
  - by destruct db.
  - simpl. unfold bind, Team_update_or_create.
    rewrite write_checked_ok by done. by rewrite IH.
Qed.

Lemma load_games_result games_data db :
  load_games games_data db
  = ({| Db.teams := Db.teams db;
        Db.games :=
          upserts ((λ g, (JsonGame.id g, {| Game.date := JsonGame.date g |}))
                     <$> games_data) (Db.games db);
        Db.players := Db.players db;
        Db.shots := Db.shots db; Db.passes := Db.passes db;
        Db.turnovers := Db.turnovers db |}, inl tt).
Proof.
  unfold load_games. revert db. induction games_data as [|g G IH]; intros db.
  - by destruct db.
  - simpl. unfold bind, Game_update_or_create.
    rewrite write_checked_ok by done. by rewrite IH.
Qed.

Lemma put_shots_result pk (L : list JsonShot.t) db :
  foldl (λ d x, Db.put_shot (shot_row pk x) d) db L
  = {| Db.teams := Db.teams db; Db.games := Db.games db; Db.players := Db.players db;
       Db.shots := upserts ((λ r, (Shot.id r, r)) <$> (shot_row pk <$> L)) (Db.shots db);
       Db.passes := Db.passes db; Db.turnovers := Db.turnovers db |}.
Proof.
  revert db. induction L as [|x L IH]; intros db; [by destruct db|].
  simpl. by rewrite IH.
Qed.

Lemma put_passes_result pk (L : list JsonPass.t) db :
  foldl (λ d x, Db.put_pass (pass_row pk x) d) db L
  = {| Db.teams := Db.teams db; Db.games := Db.games db; Db.players := Db.players db;
       Db.shots := Db.shots db;
       Db.passes := upserts ((λ r, (Pass.id r, r)) <$> (pass_row pk <$> L)) (Db.passes db);
       Db.turnovers := Db.turnovers db |}.
Proof.
  revert db. induction L as [|x L IH]; intros db; [by destruct db|].
  simpl. by rewrite IH.
Qed.

Lemma put_turnovers_result pk (L : list JsonTurnover.t) db :
  foldl (λ d x, Db.put_turnover (turnover_row pk x) d) db L
  = {| Db.teams := Db.teams db; Db.games := Db.games db; Db.players := Db.players db;
       Db.shots := Db.shots db; Db.passes := Db.passes db;
       Db.turnovers :=
         upserts ((λ r, (Turnover.id r, r)) <$> (turnover_row pk <$> L))
           (Db.turnovers db) |}.
Proof.
  revert db. induction L as [|x L IH]; intros db; [by destruct db|].
  simpl. by rewrite IH.
Qed.

Lemma player_writes_result p db :
  player_writes p db
  = {| Db.teams := Db.teams db; Db.games := Db.games db;
       Db.players := <[JsonPlayer.player_id p := player_row_of p]> (Db.players db);
       Db.shots := upserts ((λ r, (Shot.id r, r)) <$> shot_rows_of [p]) (Db.shots db);
       Db.passes := upserts ((λ r, (Pass.id r, r)) <$> pass_rows_of [p]) (Db.passes db);
       Db.turnovers :=
         upserts ((λ r, (Turnover.id r, r)) <$> turnover_rows_of [p])
           (Db.turnovers db) |}.
Proof.
  unfold player_writes, shot_rows_of, pass_rows_of, turnover_rows_of.
  rewrite put_turnovers_result, put_passes_result, put_shots_result. simpl.
  by rewrite !(right_id_L [] (++)).
Qed.

Lemma upserts_app {V} (l1 l2 : list (Z * V)) table :
  upserts (l1 ++ l2) table = upserts l2 (upserts l1 table).
Proof. apply foldl_app. Qed.

Lemma players_writes_result players_data db :
  foldl (λ d p, player_writes p d) db players_data
  = {| Db.teams := Db.teams db; Db.games := Db.games db;
       Db.players :=
         upserts ((λ p, (JsonPlayer.player_id p, player_row_of p)) <$> players_data)
           (Db.players db);
       Db.shots :=
         upserts ((λ r, (Shot.id r, r)) <$> shot_rows_of players_data) (Db.shots db);
       Db.passes :=
         upserts ((λ r, (Pass.id r, r)) <$> pass_rows_of players_data) (Db.passes db);
       Db.turnovers :=
         upserts ((λ r, (Turnover.id r, r)) <$> turnover_rows_of players_data)
           (Db.turnovers db) |}.
Proof.
  revert db. induction players_data as [|p P IH]; intros db; [by destruct db|].
  simpl. rewrite IH, player_writes_result. simpl.
  change (shot_rows_of (p :: P)) with (shot_rows_of [p] ++ shot_rows_of P).
  change (pass_rows_of (p :: P)) with (pass_rows_of [p] ++ pass_rows_of P).
  change (turnover_rows_of (p :: P)) with (turnover_rows_of [p] ++ turnover_rows_of P).
  by rewrite !fmap_app, !upserts_app.
Qed.

End LoaderResult.

Section LoaderSpec.
Import LoadData.

(** The loop over the events of one kind of a player that is in the
    database: it writes every row when every game is in the database, and
    raises otherwise. *)
Lemma events_loop {A} (rows : A → Db.t → Db.t) (write : A → M unit)
    (game : A → Z) (pk : Z) (L : list A) db :
  (∀ x d, is_Some (Db.players d !! pk) ∧ is_Some (Db.games d !! game x) →
          write x d = (rows x d, inl tt)) →
  (∀ x d, ¬ (is_Some (Db.players d !! pk) ∧ is_Some (Db.games d !! game x)) →
          write x d = (d, inr IntegrityError)) →
  (∀ x d, Db.players (rows x d) = Db.players d ∧ Db.games (rows x d) = Db.games d) →
  is_Some (Db.players db !! pk) →
  (Forall (λ g, is_Some (Db.games db !! g)) (game <$> L) →
   for_each L write db = (foldl (λ d x, rows x d) db L, inl tt))
  ∧ (¬ Forall (λ g, is_Some (Db.games db !! g)) (game <$> L) →
     ∃ db', for_each L write db = (db', inr IntegrityError)).
Proof.
  intros Hok Hno Hframe Hpk.
  set (ok := λ (x : A) (d : Db.t),
               is_Some (Db.players d !! pk) ∧ is_Some (Db.games d !! game x)).
  assert (Hno' : ∀ x d, ¬ ok x d → ∃ db', write x d = (db', inr IntegrityError)).
  { intros x d Hx. exists d. by apply Hno. }
  assert (Hinv : ∀ x y d, ok x (rows y d) ↔ ok x d).
  { intros x y d. unfold ok. destruct (Hframe y d) as [-> ->]. done. }
  assert (Hdec : ∀ x d, Decision (ok x d)) by (intros x d; unfold ok; apply _).
  destruct (for_each_spec write ok rows Hok Hno' Hinv Hdec L db) as [Hyes Hnot].
  assert (Heq : Forall (λ x, ok x db) L
                ↔ Forall (λ g, is_Some (Db.games db !! g)) (game <$> L)).
  { rewrite Forall_fmap. apply Forall_iff. intros x. unfold ok. simpl. tauto. }
  rewrite <- Heq. by split.
Qed.

Lemma player_body_spec p db :
  let body :=
    bind (Player_update_or_create (JsonPlayer.player_id p) (JsonPlayer.name p)
            (JsonPlayer.team_id p))
      (λ player,
    bind (for_each (default [] (JsonPlayer.shots p)) (λ shot_data,
            Shot_update_or_create (shot_row player shot_data)))
      (λ _,
    bind (for_each (default [] (JsonPlayer.passes p)) (λ pass_data,
            Pass_update_or_create (pass_row player pass_data)))
      (λ _,
    for_each (default [] (JsonPlayer.turnovers p)) (λ tov_data,
      Turnover_update_or_create (turnover_row player tov_data))))) in
  (player_ok db p → body db = (player_writes p db, inl tt))
  ∧ (¬ player_ok db p → ∃ db', body db = (db', inr IntegrityError)).
Proof.
  simpl.
  match goal with |- (_ → ?b = _) ∧ _ => remember b as r eqn:Hr end.
  unfold player_ok, game_ids. rewrite !Forall_app.
  unfold Player_update_or_create, bind in Hr.
  destruct (decide (is_Some (Db.teams db !! JsonPlayer.team_id p))) as [Ht|Ht].
  2:{ rewrite write_checked_refused in Hr by done. subst r.
      split; [tauto|intros _; by eexists]. }
  rewrite write_checked_ok in Hr by done. unfold ret in Hr.
  set (pk := JsonPlayer.player_id p) in *.
  set (d0 := Db.put_player pk _ db) in *.
  assert (H0 : is_Some (Db.players d0 !! pk)).
  { unfold d0. simpl. rewrite lookup_insert_eq. by eexists. }
  destruct (events_loop (λ x, Db.put_shot (shot_row pk x))
              (λ x, Shot_update_or_create (shot_row pk x)) JsonShot.game_id pk
              (default [] (JsonPlayer.shots p)) d0) as [HSok HSno]; try done.
  { intros x d Hx. unfold Shot_update_or_create. by rewrite write_checked_ok. }
  { intros x d Hx. unfold Shot_update_or_create. by rewrite write_checked_refused. }
  set (d1 := foldl (λ d x, Db.put_shot (shot_row pk x) d) d0
               (default [] (JsonPlayer.shots p))) in *.
  assert (H1 : Db.players d1 = Db.players d0 ∧ Db.games d1 = Db.games d0).
  { unfold d1. by rewrite put_shots_result. }
  destruct H1 as [H1p H1g].
  destruct (events_loop (λ x, Db.put_pass (pass_row pk x))
              (λ x, Pass_update_or_create (pass_row pk x)) JsonPass.game_id pk
              (default [] (JsonPlayer.passes p)) d1) as [HPok HPno]; try done.
  { intros x d Hx. unfold Pass_update_or_create. by rewrite write_checked_ok. }
  { intros x d Hx. unfold Pass_update_or_create. by rewrite write_checked_refused. }
  { by rewrite H1p. }
  set (d2 := foldl (λ d x, Db.put_pass (pass_row pk x) d) d1
               (default [] (JsonPlayer.passes p))) in *.
  assert (H2 : Db.players d2 = Db.players d1 ∧ Db.games d2 = Db.games d1).
  { unfold d2. by rewrite put_passes_result. }
  destruct H2 as [H2p H2g].
  destruct (events_loop (λ x, Db.put_turnover (turnover_row pk x))
              (λ x, Turnover_update_or_create (turnover_row pk x))
              JsonTurnover.game_id pk
              (default [] (JsonPlayer.turnovers p)) d2) as [HTok HTno]; try done.
  { intros x d Hx. unfold Turnover_update_or_create. by rewrite write_checked_ok. }
  { intros x d Hx. unfold Turnover_update_or_create.
    by rewrite write_checked_refused. }
  { by rewrite H2p, H1p. }
  rewrite H2g, H1g in HTok, HTno. rewrite H1g in HPok, HPno.
  change (Db.games d0) with (Db.games db) in *.
  set (GS := Forall (λ g, is_Some (Db.games db !! g))
               (JsonShot.game_id <$> default [] (JsonPlayer.shots p))) in *.
  set (GP := Forall (λ g, is_Some (Db.games db !! g))
               (JsonPass.game_id <$> default [] (JsonPlayer.passes p))) in *.
  set (GT := Forall (λ g, is_Some (Db.games db !! g))
               (JsonTurnover.game_id <$> default [] (JsonPlayer.turnovers p))) in *.
  assert (DS : Decision GS) by apply _.
  assert (DP : Decision GP) by apply _.
  assert (DT : Decision GT) by apply _.
  destruct DS as [HS|HS].
  2:{ destruct (HSno HS) as [db' Hdb']. rewrite Hdb' in Hr. subst r.
      split; [tauto|intros _; by eexists]. }
  rewrite (HSok HS) in Hr.
  destruct DP as [HP|HP].
  2:{ destruct (HPno HP) as [db' Hdb']. rewrite Hdb' in Hr. subst r.
      split; [tauto|intros _; by eexists]. }
  rewrite (HPok HP) in Hr.
  destruct DT as [HT|HT].
  2:{ destruct (HTno HT) as [db' Hdb']. rewrite Hdb' in Hr. subst r.
      split; [tauto|intros _; by eexists]. }
  rewrite (HTok HT) in Hr. subst r. split; [|tauto]. intros _. reflexivity.
Qed.

Lemma player_writes_frame p db :
  Db.teams (player_writes p db) = Db.teams db
  ∧ Db.games (player_writes p db) = Db.games db.
Proof. by rewrite player_writes_result. Qed.

Lemma load_players_spec players_data db :
  (Forall (player_ok db) players_data →
   load_players players_data db
   = (foldl (λ d p, player_writes p d) db players_data, inl tt))
  ∧ (¬ Forall (player_ok db) players_data →
     ∃ db', load_players players_data db = (db', inr IntegrityError)).
Proof.
  unfold load_players.
  apply (for_each_spec _ (λ p d, player_ok d p) player_writes).
  - intros p d. apply (player_body_spec p d).
  - intros p d. apply (player_body_spec p d).
  - intros p q d. unfold player_ok.
    destruct (player_writes_frame q d) as [-> ->]. done.
  - intros p d. apply _.
Qed.

Lemma keys_resolve_player_ok teams_data games_data players_data db :
  let db2 :=
    {| Db.teams :=
         upserts ((λ t, (JsonTeam.team_id t, {| Team.name := JsonTeam.name t |}))
                    <$> teams_data) (Db.teams db);
       Db.games :=
         upserts ((λ g, (JsonGame.id g, {| Game.date := JsonGame.date g |}))
                    <$> games_data) (Db.games db);
       Db.players := Db.players db;
       Db.shots := Db.shots db; Db.passes := Db.passes db;
       Db.turnovers := Db.turnovers db |} in
  Forall (player_ok db2) players_data
  ↔ keys_resolve teams_data games_data players_data db.
Proof.
  simpl. unfold keys_resolve, player_ok, team_known, game_known. simpl.
  apply Forall_iff. intros p.
  rewrite upserts_dom, <- list_fmap_compose.
  apply and_iff_compat_l, Forall_iff. intros g.
  by rewrite upserts_dom, <- list_fmap_compose.
Qed.

(** What [main] does on data that the database refuses for its foreign
    keys only: it returns, with every row of the three files written, when
    the keys of the players file resolve, and raises [IntegrityError]
    otherwise. *)
Lemma main_spec teams_data games_data players_data db :
  (keys_resolve teams_data games_data players_data db →
   main teams_data games_data players_data db
   = (loaded teams_data games_data players_data db, inl tt))
  ∧ (¬ keys_resolve teams_data games_data players_data db →
     ∃ db', main teams_data games_data players_data db = (db', inr IntegrityError)).
Proof.
  unfold main, bind. rewrite load_teams_result, load_games_result. simpl.
  rewrite <- keys_resolve_player_ok.
  match goal with
  | |- context [load_players players_data ?d] =>
      destruct (load_players_spec players_data d) as [Hok Hno]
  end.
  split.
  - intros Hall. rewrite (Hok Hall), players_writes_result. reflexivity.
  - intros Hn. destruct (Hno Hn) as [db' ->]. by eexists.
Qed.

End LoaderSpec.

Section LoaderFacts.
Import LoadData.

Lemma loaded_idemp teams_data games_data players_data db :
  loaded teams_data games_data players_data
    (loaded teams_data games_data players_data db)
  = loaded teams_data games_data players_data db.
Proof. unfold loaded. simpl. by rewrite !upserts_idemp. Qed.

Lemma keys_resolve_loaded teams_data games_data players_data db :
  keys_resolve teams_data games_data players_data db →
  keys_resolve teams_data games_data players_data
    (loaded teams_data games_data players_data db).
Proof.
  unfold keys_resolve, team_known, game_known. simpl.
  intros Hall. eapply Forall_impl; [exact Hall|]. simpl. intros p [Ht Hg]. split.
  - rewrite upserts_dom. tauto.
  - eapply Forall_impl; [exact Hg|]. intros g. simpl. rewrite upserts_dom. tauto.
Qed.

(** A run of [main] that returned made every write. *)
Lemma main_returned teams_data games_data players_data db db' :
  main teams_data games_data players_data db = (db', inl tt) →
  keys_resolve teams_data games_data players_data db
  ∧ db' = loaded teams_data games_data players_data db.
Proof.
  intros Hrun.
  destruct (main_spec teams_data games_data players_data db) as [Hok Hno].
  destruct (decide (keys_resolve teams_data games_data players_data db)) as [Hk|Hk].
  - rewrite (Hok Hk) in Hrun. split; [done|]. by inversion Hrun.
  - destruct (Hno Hk) as [d Hd]. rewrite Hd in Hrun. discriminate Hrun.
Qed.

End LoaderFacts.

(** X19. [main] returns only on files whose references it can write.
    When it has returned, every team that a player of the players file
    refers to, and every game that an event of the file refers to, was in
    the teams file, in the games file, or in the database before the run;
    and in the database it leaves, the team of every player of the file
    and the game of every event of the file are rows. *)
Theorem main_returns_only_if_keys_resolve teams_data games_data players_data db db' :
  LoadData.main teams_data games_data players_data db = (db', inl tt) →
  keys_resolve teams_data games_data players_data db
  ∧ Forall (player_ok db') players_data.
Proof.
  intros [Hk ->]%main_returned. split; [exact Hk|].
  apply keys_resolve_loaded in Hk.
  unfold keys_resolve, team_known, game_known in Hk.
  eapply Forall_impl; [exact Hk|]. simpl. intros p [Ht Hg]. split.
  - destruct Ht as [Ht|Ht]; [|exact Ht].
    apply upserts_dom. left. by rewrite <- list_fmap_compose.
  - eapply Forall_impl; [exact Hg|]. simpl. intros g [Hin|Hin]; [|exact Hin].
    apply upserts_dom. left. by rewrite <- list_fmap_compose.
Qed.

Lemma main_returns_only_if_keys_resolve_witness :
  let run := LoadData.main DataFixture.teams_data DataFixture.games_data
               DataFixture.players_data in
  run Db.empty = ((run Db.empty).1, inl tt)
  ∧ keys_resolve DataFixture.teams_data DataFixture.games_data
      DataFixture.players_data Db.empty
  ∧ Forall (player_ok (run Db.empty).1) DataFixture.players_data.
Proof.
  intros run.
  assert (Hrun : run Db.empty = ((run Db.empty).1, inl tt)).
  { apply (injective_projections _ _); [reflexivity|].
    vm_compute. reflexivity. }
  split; [exact Hrun|].
  apply (main_returns_only_if_keys_resolve DataFixture.teams_data
           DataFixture.games_data DataFixture.players_data Db.empty _ Hrun).
Defined.

(** X20. The loader can be run again: when [main] has returned, a second
    run on the same files returns too and leaves the database as the first
    run left it. *)
Theorem main_idempotent teams_data games_data players_data db db' :
  LoadData.main teams_data games_data players_data db = (db', inl tt) →
  LoadData.main teams_data games_data players_data db' = (db', inl tt).
Proof.
  intros [Hk ->]%main_returned.
  destruct (main_spec teams_data games_data players_data
              (loaded teams_data games_data players_data db)) as [Hok _].
  rewrite Hok by by apply keys_resolve_loaded.
  by rewrite loaded_idemp.
Qed.

Lemma main_idempotent_witness :
  let run := LoadData.main DataFixture.teams_data DataFixture.games_data
               DataFixture.players_data in
  run Db.empty = ((run Db.empty).1, inl tt)
  ∧ run (run Db.empty).1 = ((run Db.empty).1, inl tt).
Proof.
  intros run.
  assert (Hrun : run Db.empty = ((run Db.empty).1, inl tt)).
  { apply (injective_projections _ _); [reflexivity|].
    vm_compute. reflexivity. }
  split; [exact Hrun|].
  apply (main_idempotent DataFixture.teams_data DataFixture.games_data
           DataFixture.players_data Db.empty _ Hrun).
Defined.

Section StoredRows.

Lemma keyed_ids {A V} (key : A → Z) (row : A → V) (l : list A) :
  ((λ x, (key x, row x)) <$> l).*1 = key <$> l.
Proof. by rewrite <- list_fmap_compose. Qed.


Lemma upserts_keyed_other {A V} (key : A → Z) (row : A → V) (l : list A) table k :
  k ∉ key <$> l →
  upserts ((λ x, (key x, row x)) <$> l) table !! k = table !! k.
Proof. intros Hk. apply upserts_other. by rewrite keyed_ids. Qed.

End StoredRows.



(** X22. A run of [main] that returned has left every row whose primary
    key is in none of the files as it was. *)
Theorem loader_leaves_other_rows teams_data games_data players_data db db' :
  LoadData.main teams_data games_data players_data db = (db', inl tt) →
  (∀ k, k ∉ JsonTeam.team_id <$> teams_data → Db.teams db' !! k = Db.teams db !! k)
  ∧ (∀ k, k ∉ JsonGame.id <$> games_data → Db.games db' !! k = Db.games db !! k)
  ∧ (∀ k, k ∉ JsonPlayer.player_id <$> players_data →
          Db.players db' !! k = Db.players db !! k)
  ∧ (∀ k, k ∉ Shot.id <$> shot_rows_of players_data →
          Db.shots db' !! k = Db.shots db !! k)
  ∧ (∀ k, k ∉ Pass.id <$> pass_rows_of players_data →
          Db.passes db' !! k = Db.passes db !! k)
  ∧ (∀ k, k ∉ Turnover.id <$> turnover_rows_of players_data →
          Db.turnovers db' !! k = Db.turnovers db !! k).
Proof.
  intros [_ ->]%main_returned. unfold loaded. simpl.
  repeat split; intros k Hk.
  - by apply (upserts_keyed_other JsonTeam.team_id
                (λ t, {| Team.name := JsonTeam.name t |})).
  - by apply (upserts_keyed_other JsonGame.id
                (λ g, {| Game.date := JsonGame.date g |})).
  - by apply (upserts_keyed_other JsonPlayer.player_id player_row_of).
  - by apply (upserts_keyed_other Shot.id id).
  - by apply (upserts_keyed_other Pass.id id).
  - by apply (upserts_keyed_other Turnover.id id).
Qed.

Lemma loader_leaves_other_rows_witness :
  let run := LoadData.main DataFixture.teams_data DataFixture.games_data
               DataFixture.players_data in
  let db := Db.put_team 7 {| Team.name := "Spurs" |} Db.empty in
  run db = ((run db).1, inl tt)
  ∧ Db.teams (run db).1 !! 7 = Some {| Team.name := "Spurs" |}.
Proof.
  intros run db.
  assert (Hrun : run db = ((run db).1, inl tt)).
  { apply (injective_projections _ _); [reflexivity|].
    vm_compute. reflexivity. }
  split; [exact Hrun|].
  destruct (loader_leaves_other_rows DataFixture.teams_data DataFixture.games_data
              DataFixture.players_data db _ Hrun) as (Hteams & _).
  rewrite (Hteams 7); [reflexivity|].
  unfold DataFixture.teams_data. simpl. rewrite !elem_of_cons, elem_of_nil.
  intros [H|[H|[]]]; discriminate H.
Defined.

Section PartialLoad.
Import LoadData.

Lemma for_each_app {A} (body : A → M unit) (l1 l2 : list A) db :
  for_each (l1 ++ l2) body db
  = bind (for_each l1 body) (λ _, for_each l2 body) db.
Proof.
  revert db. induction l1 as [|x l1 IH]; intros db; [done|].
  simpl. unfold bind in *. destruct (body x db) as [d [[]|e]]; [apply IH|done].
Qed.

Lemma players_writes_teams players_data db :
  Db.teams (foldl (λ d p, player_writes p d) db players_data) = Db.teams db.
Proof. by rewrite players_writes_result. Qed.

End PartialLoad.

(** X23. [load_players] is not all or nothing. When the team of a player of
    the file is not in the database, while the call on the players listed
    before that one returns, the call on the file raises; it leaves the
    database as the call on the players listed before leaves it, with their
    rows and the rows of their events written, and nothing of the refused
    player or of the players listed after. *)
Theorem load_players_stops_at_unknown_team before player_data after db db1 :
  LoadData.load_players before db = (db1, inl tt) →
  ¬ is_Some (Db.teams db !! JsonPlayer.team_id player_data) →
  ∃ e, LoadData.load_players (before ++ player_data :: after) db = (db1, inr e).
Proof.
  intros Hbefore Hteam. exists LoadData.IntegrityError.
  destruct (load_players_spec before db) as [Hok Hno].
  destruct (decide (Forall (player_ok db) before)) as [Hall|Hall].
  - rewrite (Hok Hall) in Hbefore. injection Hbefore as <-.
    unfold LoadData.load_players in *.
    rewrite for_each_app. unfold LoadData.bind at 1. rewrite (Hok Hall).
    simpl. unfold LoadData.Player_update_or_create, LoadData.bind.
    rewrite write_checked_refused; [done|].
    by rewrite players_writes_teams.
  - destruct (Hno Hall) as [d Hd]. rewrite Hd in Hbefore. discriminate Hbefore.
Qed.

Lemma load_players_stops_at_unknown_team_witness :
  let db := (LoadData.load_games DataFixture.games_data
               (LoadData.load_teams DataFixture.teams_data Db.empty).1).1 in
  let db1 := (LoadData.load_players DataFixture.players_data db).1 in
  LoadData.load_players DataFixture.players_data db = (db1, inl tt)
  ∧ ∃ e, LoadData.load_players
           (DataFixture.players_data ++ DataFixture.stray_players_data) db
         = (db1, inr e).
Proof.
  intros db db1.
  assert (Hbefore : LoadData.load_players DataFixture.players_data db = (db1, inl tt)).
  { apply (injective_projections _ _); [reflexivity|].
    vm_compute. reflexivity. }
  split; [exact Hbefore|].
  apply (load_players_stops_at_unknown_team DataFixture.players_data
           {| JsonPlayer.player_id := 3; JsonPlayer.name := "Cy";
              JsonPlayer.team_id := 9; JsonPlayer.shots := None;
              JsonPlayer.passes := None; JsonPlayer.turnovers := None |}
           [] db db1 Hbefore).
  intros [row Hrow]. vm_compute in Hrow. discriminate Hrow.
Defined.

(** ** From the data files to the summary *)

Section EndToEnd.







Context {E A : Type} `{Event A}.
Variable entries : JsonPlayer.t → list E.
Variable row : Z → E → A.
Hypothesis row_player : ∀ k x, player_of (row k x) = k.





End EndToEnd.


